(** * puch_mcp: the EMS triage pipeline of [puch_mcp.py]

    A shallow embedding of the three tools of the server (symptom
    extraction, red-flag classification, nearest hospital) and of the
    helpers they call, followed by the properties established about them.

    Conventions of the embedding.
    - A Python [str] is a Rocq [string]; a character is read as the code
      point 0..255 it denotes, and the character predicates of Python
      ([str.lower], [str.isspace], the classes [\d], [\s], [\w] of [re])
      are written out for that range.
    - Values of type [Any] (what JSON decoding produces) are [pyval].
    - A Python exception is a value of [exn]; a function that can raise
      returns [res].
    - A [dict] is an association list in insertion order with distinct keys.
    - A Python [float] is a binary64 [float]; the functions of the C math
      library are parameters. *)

From Stdlib Require Import Bool Arith ZArith List String Ascii Lia.
From Stdlib Require Import Sorting.Sorted Sorting.Permutation.
From Stdlib Require Import Floats.PrimFloat Numbers.Cyclic.Int63.Uint63.
From Stdlib Require Floats.SpecFloat Floats.FloatAxioms.
Import ListNotations.

Local Open Scope string_scope.
Local Open Scope Z_scope.

(** ** Characters *)

Definition code (c : ascii) : nat := nat_of_ascii c.

Definition between (lo hi : nat) (c : ascii) : bool :=
  (Nat.leb lo (code c) && Nat.leb (code c) hi)%bool.

Definition is_code (n : nat) (c : ascii) : bool := Nat.eqb (code c) n.

(** [\d] of a [str] pattern: the decimal digits. *)
Definition isdecimal (c : ascii) : bool := between 48 57 c.

(** [str.isspace] and [\s]: TAB..CR, FS..US, SPACE, NEL, NBSP. *)
Definition isspace (c : ascii) : bool :=
  (between 9 13 c || between 28 32 c || is_code 133 c || is_code 160 c)%bool.

(** Alphanumeric code points below 256. *)
Definition isalnum (c : ascii) : bool :=
  (isdecimal c || between 65 90 c || between 97 122 c
   || is_code 170 c || is_code 178 c || is_code 179 c || is_code 181 c
   || is_code 185 c || is_code 186 c || between 188 190 c
   || between 192 214 c || between 216 246 c || between 248 255 c)%bool.

(** [\w]: alphanumeric or underscore. *)
Definition isword (c : ascii) : bool := (isalnum c || is_code 95 c)%bool.

(** [str.lower] on one character: A..Z and the upper-case letters
    192..222 (without the multiplication sign 215) move up by 32. *)
Definition lower_char (c : ascii) : ascii :=
  if (between 65 90 c || between 192 214 c || between 216 222 c)%bool
  then ascii_of_nat (code c + 32)
  else c.

(** ** Strings *)

Fixpoint lower (s : string) : string :=
  match s with
  | EmptyString => EmptyString
  | String c s' => String (lower_char c) (lower s')
  end.

Fixpoint lstrip (s : string) : string :=
  match s with
  | EmptyString => EmptyString
  | String c s' => if isspace c then lstrip s' else s
  end.

Fixpoint rstrip (s : string) : string :=
  match s with
  | EmptyString => EmptyString
  | String c s' =>
      match rstrip s' with
      | EmptyString => if isspace c then EmptyString else String c EmptyString
      | t => String c t
      end
  end.

(** [text.strip()] *)
Definition strip (s : string) : string := rstrip (lstrip s).

(** Truth value of a [str]. *)
Definition str_truthy (s : string) : bool :=
  match s with EmptyString => false | _ => true end.

(** [p in s] for two [str]. *)
Fixpoint contains (p s : string) : bool :=
  (prefix p s ||
   match s with
   | EmptyString => false
   | String _ s' => contains p s'
   end)%bool.

(** ** Exceptions and results *)

Inductive exn : Type :=
| McpError (code : Z) (message : string)
| TypeError
| ValueError
| OverflowError.

Definition INVALID_PARAMS : Z := -32602.

Inductive res (A : Type) : Type :=
| Return (a : A)
| Raise (e : exn).

Arguments Return {A} a.
Arguments Raise {A} e.

Definition bind {A B : Type} (m : res A) (f : A -> res B) : res B :=
  match m with
  | Return a => f a
  | Raise e => Raise e
  end.

Notation "x <- m ;; k" := (bind m (fun x => k))
  (at level 61, m at next level, right associativity).

(** ** Dynamically typed values *)

#[warning="-register-all"]
Inductive pyval : Type :=
| PNone
| PBool (b : bool)
| PInt (z : Z)
| PFloat (f : float)
| PStr (s : string)
| PList (l : list pyval)
| PDict (d : list (string * pyval)).

Definition dict : Type := list (string * pyval).

Fixpoint dict_lookup (d : dict) (k : string) : option pyval :=
  match d with
  | [] => None
  | (k', v) :: d' => if String.eqb k' k then Some v else dict_lookup d' k
  end.

(** [d.get(k, dflt)] *)
Definition dict_get_default (d : dict) (k : string) (dflt : pyval) : pyval :=
  match dict_lookup d k with Some v => v | None => dflt end.

(** [d.get(k)] *)
Definition dict_get (d : dict) (k : string) : pyval := dict_get_default d k PNone.

Definition opt_int (o : option Z) : pyval :=
  match o with Some z => PInt z | None => PNone end.

Definition opt_str (o : option string) : pyval :=
  match o with Some s => PStr s | None => PNone end.

(** ** A backtracking matcher for the fragment of [re] that [_AGE_RX] uses *)

Inductive regex : Type :=
| Boundary                                                   (* \b *)
| LitI (c : ascii)                                           (* a letter, re.I *)
| Repeat (p : ascii -> bool) (lo : nat) (hi : option nat)    (* greedy class{lo,hi} *)
| Opt (r : regex)                                            (* greedy r? *)
| Seq (r1 r2 : regex)
| Alt (r1 r2 : regex)
| Group (r : regex).                                         (* group 1 *)

(** Where the matcher stands: the character before the position, the text
    from the position on, the position, and group 1 when it took part. *)
Record mstate : Type := MState {
  prev : option ascii;
  rest : string;
  pos : nat;
  group1 : option string
}.

Definition word_before (st : mstate) : bool :=
  match prev st with Some c => isword c | None => false end.

Definition word_after (st : mstate) : bool :=
  match rest st with String c _ => isword c | EmptyString => false end.

Definition under (hi : option nat) (n : nat) : bool :=
  match hi with Some h => Nat.ltb n h | None => true end.

Fixpoint repeat_greedy {A : Type} (p : ascii -> bool) (lo : nat) (hi : option nat)
    (n : nat) (pv : option ascii) (s : string) (ps : nat) (g : option string)
    (k : mstate -> option A) : option A :=
  match s with
  | String c s' =>
      if (p c && under hi n)%bool then
        match repeat_greedy p lo hi (S n) (Some c) s' (S ps) g k with
        | Some x => Some x
        | None => if Nat.leb lo n then k (MState pv s ps g) else None
        end
      else if Nat.leb lo n then k (MState pv s ps g) else None
  | EmptyString => if Nat.leb lo n then k (MState pv s ps g) else None
  end.

Fixpoint rmatch {A : Type} (r : regex) (st : mstate) (k : mstate -> option A)
    : option A :=
  match r with
  | Boundary => if xorb (word_before st) (word_after st) then k st else None
  | LitI c =>
      match rest st with
      | String x s' =>
          if Ascii.eqb (lower_char x) c
          then k (MState (Some x) s' (S (pos st)) (group1 st))
          else None
      | EmptyString => None
      end
  | Repeat p lo hi =>
      repeat_greedy p lo hi 0 (prev st) (rest st) (pos st) (group1 st) k
  | Opt r' =>
      match rmatch r' st k with
      | Some x => Some x
      | None => k st
      end
  | Seq r1 r2 => rmatch r1 st (fun st' => rmatch r2 st' k)
  | Alt r1 r2 =>
      match rmatch r1 st k with
      | Some x => Some x
      | None => rmatch r2 st k
      end
  | Group r' =>
      rmatch r' st (fun st' =>
        k (MState (prev st') (rest st') (pos st')
                  (Some (substring 0 (pos st' - pos st) (rest st)))))
  end.

(** [rx.search(text)]: the first start position, left to right, at which
    the pattern matches. *)
Fixpoint search_from (r : regex) (pv : option ascii) (s : string) (ps : nat)
    : option mstate :=
  match rmatch r (MState pv s ps None) Some with
  | Some m => Some m
  | None =>
      match s with
      | EmptyString => None
      | String c s' => search_from r (Some c) s' (S ps)
      end
  end.

Definition search (r : regex) (text : string) : option mstate :=
  search_from r None text 0.

(** A word of letters, each matched without regard to case. *)
Fixpoint word (s : string) : regex :=
  match s with
  | EmptyString => Repeat (fun _ => false) 0 (Some O)
  | String c EmptyString => LitI c
  | String c s' => Seq (LitI c) (word s')
  end.

(** [re.compile(r"\b(\d{1,3})\s*(?:y|yr|yrs|years?)\b", re.I)] *)
Definition _AGE_RX : regex :=
  Seq Boundary
  (Seq (Group (Repeat isdecimal 1 (Some 3%nat)))
  (Seq (Repeat isspace 0 None)
  (Seq (Alt (word "y") (Alt (word "yr") (Alt (word "yrs")
            (Seq (word "year") (Opt (LitI "s"%char))))))
       Boundary))).

(** [int(s)] on a string of decimal digits; [None] stands for the
    [ValueError] of any other string. *)
Fixpoint int_acc (acc : Z) (s : string) : option Z :=
  match s with
  | EmptyString => Some acc
  | String c s' =>
      if isdecimal c
      then int_acc (10 * acc + Z.of_nat (code c - 48)) s'
      else None
  end.

Definition int (s : string) : option Z :=
  match s with
  | EmptyString => None
  | _ => int_acc 0 s
  end.

Definition group_1 (m : mstate) : string :=
  match group1 m with Some g => g | None => EmptyString end.

(** [_extract_age]: the range test returns the age when it is in range, and
    the statement after the [try] returns it when it is not. *)
Definition _extract_age (text : string) : option Z :=
  match search _AGE_RX text with
  | None => None
  | Some m =>
      match int (group_1 m) with
      | None => None
      | Some age =>
          if ((0 <=? age) && (age <=? 120))%bool
          then Some age
          else Some age
      end
  end.

(** ** Symptom flags *)

Definition _EMS_SYMPTOMS : list (string * list string) :=
  [ ("chest_pain", ["chest pain"; "pressure in chest"; "tight chest"]);
    ("breathlessness", ["short of breath"; "breathless"; "difficulty breathing"]);
    ("unconscious", ["unconscious"; "not responding"; "passed out"; "fainted"]);
    ("bleeding", ["bleeding"; "profuse bleed"; "blood everywhere"]);
    ("seizure", ["seizure"; "fitting"; "convulsion"]);
    ("stroke_signs", ["face droop"; "arm weakness"; "slurred speech"; "stroke"]);
    ("fever", ["fever"; "temperature"; "high temp"; "pyrexia"]);
    ("pain", ["pain"; "ache"; "hurts"]) ].

Definition mem (x : string) (l : list string) : bool :=
  existsb (String.eqb x) l.

(** [found.add(flag)] on a set kept as a duplicate-free list. *)
Definition set_add (x : string) (found : list string) : list string :=
  if mem x found then found else found ++ [x].

(** [sorted] on strings: insertion into an ascending list. *)
Fixpoint insert_sorted (x : string) (l : list string) : list string :=
  match l with
  | [] => [x]
  | y :: l' => if String.leb x y then x :: l else y :: insert_sorted x l'
  end.

Definition sorted (l : list string) : list string :=
  fold_right insert_sorted [] l.

(** The inner loop with its [break]: does some phrase occur in [low]? *)
Definition any_phrase (phrases : list string) (low : string) : bool :=
  existsb (fun p => contains p low) phrases.

(** The outer loop over [_EMS_SYMPTOMS.items()]. *)
Definition scan (low : string) (items : list (string * list string))
    (found : list string) : list string :=
  fold_left
    (fun acc item => if any_phrase (snd item) low then set_add (fst item) acc else acc)
    items found.

Definition _flags_from_text (text : string) : list string :=
  let low := lower text in
  sorted (scan low _EMS_SYMPTOMS []).

(** ** Classification *)

(** [list(x)] *)
Definition py_list (v : pyval) : res (list pyval) :=
  match v with
  | PStr s => Return (map (fun c => PStr (String c EmptyString)) (list_ascii_of_string s))
  | PList l => Return l
  | PDict d => Return (map (fun kv => PStr (fst kv)) d)
  | _ => Raise TypeError
  end.

Definition hashable (v : pyval) : bool :=
  match v with
  | PList _ | PDict _ => false
  | _ => true
  end.

(** [set(l)]. The code only asks a set whether it is empty and which of a
    few strings are in it, so a set is kept as the list of its elements. *)
Definition py_set (l : list pyval) : res (list pyval) :=
  if forallb hashable l then Return l else Raise TypeError.

(** [v == s] for a string [s]. *)
Definition eq_str (v : pyval) (s : string) : bool :=
  match v with
  | PStr t => String.eqb t s
  | _ => false
  end.

(** [f & c] where [c] is a set of strings. *)
Definition set_and (f : list pyval) (c : list string) : list pyval :=
  filter (fun v => existsb (eq_str v) c) f.

(** Truth value of a list or set. *)
Definition truthy {A : Type} (l : list A) : bool :=
  match l with [] => false | _ => true end.

(** The [float] equal to a small non-negative integer (exact below 2^53). *)
Definition float_of_int (n : Z) : float := PrimFloat.of_uint63 (Uint63.of_Z n).

(** [v < n] and [v > n] for an [int] literal [n]. *)
Definition py_lt (v : pyval) (n : Z) : res bool :=
  match v with
  | PBool b => Return (Z.b2z b <? n)
  | PInt z => Return (z <? n)
  | PFloat f => Return (PrimFloat.ltb f (float_of_int n))
  | _ => Raise TypeError
  end.

Definition py_gt (v : pyval) (n : Z) : res bool :=
  match v with
  | PBool b => Return (n <? Z.b2z b)
  | PInt z => Return (n <? z)
  | PFloat f => Return (PrimFloat.ltb (float_of_int n) f)
  | _ => Raise TypeError
  end.

Definition is_none (v : pyval) : bool :=
  match v with PNone => true | _ => false end.

Definition critical : list string := ["unconscious"; "bleeding"].
Definition als : list string :=
  ["chest_pain"; "breathlessness"; "seizure"; "stroke_signs"].

(** [age is not None and (age < 12 or age > 75) and f] as a truth value. *)
Definition escalates (age : pyval) (f : list pyval) : res bool :=
  if is_none age then Return false
  else
    young <- py_lt age 12 ;;
    extreme <- (if young then Return true else py_gt age 75) ;;
    Return (extreme && truthy f)%bool.

Definition _level_from_flags (flags : list pyval) (age : pyval) : res string :=
  f <- py_set (if truthy flags then flags else []) ;;
  if truthy (set_and f critical) then Return "Critical"
  else if truthy (set_and f als) then Return "ALS"
  else
    esc <- escalates age f ;;
    if esc then Return "ALS"
    else Return (if truthy f then "BLS" else "General").

(** ** The tools *)

Definition symptom_extract_tool (text : string) (age_years : option Z) : res dict :=
  if negb (str_truthy (strip text))
  then Raise (McpError INVALID_PARAMS "text is required")
  else
    let age := match age_years with
               | Some a => Some a
               | None => _extract_age text
               end in
    let flags := _flags_from_text text in
    Return [ ("age_years", opt_int age);
             ("free_text", PStr text);
             ("flags", PList (map PStr flags));
             ("symptoms", PList (map PStr flags)) ].

Definition _redflags_core (structured : pyval) : res dict :=
  match structured with
  | PDict d =>
      flags <- py_list (dict_get_default d "flags" (PList [])) ;;
      let age := dict_get d "age_years" in
      level <- _level_from_flags flags age ;;
      Return [ ("level_of_care", PStr level);
               ("flags", PList flags);
               ("age_years", age) ]
  | _ => Raise (McpError INVALID_PARAMS "structured must be an object")
  end.

Definition redflags_validate (structured : pyval) : res dict :=
  _redflags_core structured.

(** ** The locator *)

(** One entry of [hospitals.json]. [phone] and [ambulance_phone] are what
    [h.get(...)] returns: [None] when the key is missing or null. *)
Record Facility : Type := {
  name : string;
  lat : float;
  lng : float;
  phone : option string;
  ambulance_phone : option string
}.

(** [a or b] on optional strings: [a] when it is a non-empty string. *)
Definition py_or (a b : option string) : option string :=
  match a with
  | Some s => if str_truthy s then a else b
  | None => b
  end.

(** [math.sqrt]: a negative argument is a domain error. *)
Definition math_sqrt (x : float) : res float :=
  if PrimFloat.ltb x 0%float then Raise ValueError else Return (PrimFloat.sqrt x).

(** The functions taken from the C library and the interpreter: their
    results are not fixed by IEEE 754. [sin] and [cos] raise [ValueError]
    at an infinity, [x ** 2] raises [OverflowError] when it overflows. *)
Class Libm : Type := {
  radians : float -> float;
  sin : float -> res float;
  cos : float -> res float;
  atan2 : float -> float -> float;
  pow : float -> Z -> res float;
  round : float -> Z -> float
}.

Section Locator.

Context {libm : Libm}.

Local Open Scope float_scope.

Definition distance (lat1 lon1 lat2 lon2 : float) : res float :=
  let R := float_of_int 6371 in
  let dlat := radians (lat2 - lat1) in
  let dlon := radians (lon2 - lon1) in
  s1 <- sin (dlat / 2) ;;
  p1 <- pow s1 2 ;;
  c1 <- cos (radians lat1) ;;
  c2 <- cos (radians lat2) ;;
  s2 <- sin (dlon / 2) ;;
  p2 <- pow s2 2 ;;
  let a := p1 + c1 * c2 * p2 in
  q1 <- math_sqrt a ;;
  q2 <- math_sqrt (1 - a) ;;
  let c := 2 * atan2 q1 q2 in
  Return (R * c).

(** [min(l, key=key)]: the first item whose key no later key is below. *)
Fixpoint min_loop (key : Facility -> res float) (best : Facility)
    (best_key : float) (l : list Facility) : res Facility :=
  match l with
  | [] => Return best
  | h :: t =>
      k <- key h ;;
      if PrimFloat.ltb k best_key
      then min_loop key h k t
      else min_loop key best best_key t
  end.

Definition py_min (key : Facility -> res float) (l : list Facility)
    : res Facility :=
  match l with
  | [] => Raise ValueError
  | h :: t => k <- key h ;; min_loop key h k t
  end.

(** [hospitals] is what [json.load] read from the registry file. *)
Definition find_hospital_tool (severity : string) (lat0 lng0 : float)
    (hospitals : list Facility) : res dict :=
  nearest <- py_min (fun h => distance lat0 lng0 (lat h) (lng h)) hospitals ;;
  d <- distance lat0 lng0 (lat nearest) (lng nearest) ;;
  Return [ ("nearest_hospital", PStr (name nearest));
           ("phone", opt_str (py_or (ambulance_phone nearest) (phone nearest)));
           ("distance_km", PFloat (round d 2)) ].

End Locator.

(** ** The levels of care as the specification orders them *)

Inductive SeverityLevel : Type := General | BLS | ALS | Critical.

Definition level_name (l : SeverityLevel) : string :=
  match l with
  | General => "General"
  | BLS => "BLS"
  | ALS => "ALS"
  | Critical => "Critical"
  end.

Definition urgency (l : SeverityLevel) : nat :=
  match l with
  | General => 0
  | BLS => 1
  | ALS => 2
  | Critical => 3
  end.

(** A typed flag list and a typed age, as the tools hand them over. *)
Definition flag_values (flags : list string) : list pyval := map PStr flags.

(** Does the flag set share an element with [cat]? *)
Definition intersects (flags cat : list string) : bool :=
  existsb (fun c => if in_dec string_dec c flags then true else false) cat.

(** The five rules of the specification, first match wins. *)
Definition classify_rules (flags : list string) (age : option Z) : SeverityLevel :=
  if intersects flags ["unconscious"; "bleeding"] then Critical
  else if intersects flags ["chest_pain"; "breathlessness"; "seizure"; "stroke_signs"]
  then ALS
  else if (match age with
            | Some a => (a <? 12) || (a >? 75)
            | None => false
            end && negb (Nat.eqb (List.length flags) 0))%bool
  then ALS
  else if negb (Nat.eqb (List.length flags) 0) then BLS
  else General.

(** Two flag lists that hold the same flags. *)
Definition same_flags (l1 l2 : list string) : bool :=
  (forallb (fun x => mem x l2) l1 && forallb (fun x => mem x l1) l2)%bool.

(** A text made of white space only. *)
Fixpoint all_space (s : string) : bool :=
  match s with
  | EmptyString => true
  | String c s' => (isspace c && all_space s')%bool
  end.

(** Category [c] has a phrase that occurs in the lower-cased text. *)
Definition matched (text c : string) : Prop :=
  exists phrases p,
    In (c, phrases) _EMS_SYMPTOMS /\ In p phrases /\ contains p (lower text) = true.

(** Strictly ascending in the order of [str]. *)
Definition ascending (l : list string) : Prop :=
  Sorted (fun x y => String.ltb x y = true) l.

(** Values that [list(...)] accepts. *)
Definition iterable (v : pyval) : bool :=
  match v with
  | PStr _ | PList _ | PDict _ => true
  | _ => false
  end.

(** Values that can be compared with an [int], and [None]. *)
Definition number_or_none (v : pyval) : bool :=
  match v with
  | PNone | PBool _ | PInt _ | PFloat _ => true
  | _ => false
  end.

Definition is_dict (v : pyval) : bool :=
  match v with PDict _ => true | _ => false end.

Definition is_str (v : pyval) : bool :=
  match v with PStr _ => true | _ => false end.

(** A sequence of strings, as the specification types the flags. *)
Definition str_sequence (v : pyval) : bool :=
  match v with
  | PList l => forallb is_str l
  | _ => false
  end.

(** An empty collection. *)
Definition empty_collection (v : pyval) : bool :=
  match v with
  | PList [] | PStr EmptyString | PDict [] => true
  | _ => false
  end.

(** The two tools run one after the other. *)
Definition pipeline (text : string) (age_years : option Z) : res dict :=
  signals <- symptom_extract_tool text age_years ;;
  redflags_validate (PDict signals).

(** Every flag of [l1] is a flag of [l2]. *)
Definition sub_flags (l1 l2 : list string) : bool :=
  forallb (fun x => mem x l2) l1.

(** The four values of level_of_care. *)
Definition level_names : list string := ["General"; "BLS"; "ALS"; "Critical"].

(** The names of the categories of [_EMS_SYMPTOMS]. *)
Definition category_names : list string := map fst _EMS_SYMPTOMS.

(** The one-character strings that iterating a [str] yields. *)
Definition chars_of (s : string) : list pyval :=
  map (fun c => PStr (String c EmptyString)) (list_ascii_of_string s).

(** Age known and below 12 or above 75. *)
Definition extreme_age (age : option Z) : bool :=
  match age with
  | Some a => ((a <? 12) || (75 <? a))%bool
  | None => false
  end.

(** The level as a function of the outcome of the tests of
    [_level_from_flags], in the order in which it makes them. *)
Definition decide_level (crit adv extreme any : bool) : SeverityLevel :=
  if crit then Critical
  else if adv then ALS
  else if (extreme && any)%bool then ALS
  else if any then BLS else General.

(** No phrase of any category occurs in the lower-cased text. *)
Definition no_phrase (text : string) : bool :=
  forallb (fun item => negb (any_phrase (snd item) (lower text))) _EMS_SYMPTOMS.

(** The age the extractor settles on: the hint when there is one. *)
Definition resolved_age (text : string) (age_years : option Z) : option Z :=
  match age_years with
  | Some a => Some a
  | None => _extract_age text
  end.

(** Every character, or some character, of a string is in a class. *)
Fixpoint all_chars (p : ascii -> bool) (s : string) : bool :=
  match s with
  | EmptyString => true
  | String c s' => (p c && all_chars p s')%bool
  end.

Fixpoint any_char (p : ascii -> bool) (s : string) : bool :=
  match s with
  | EmptyString => false
  | String c s' => (p c || any_char p s')%bool
  end.

(** A pattern without a capturing group. *)
Fixpoint groupless (r : regex) : bool :=
  match r with
  | Group _ => false
  | Opt r' => groupless r'
  | Seq r1 r2 | Alt r1 r2 => (groupless r1 && groupless r2)%bool
  | _ => true
  end.

(** What follows group 1 in [_AGE_RX]: white space, the unit, a boundary. *)
Definition age_unit : regex :=
  Seq (Repeat isspace 0 None)
  (Seq (Alt (word "y") (Alt (word "yr") (Alt (word "yrs")
            (Seq (word "year") (Opt (LitI "s"%char))))))
       Boundary).

(** A matcher state over the lower-cased text. *)
Definition lower_state (st : mstate) : mstate :=
  MState (option_map lower_char (prev st)) (lower (rest st)) (pos st)
         (option_map lower (group1 st)).

(** Every character class of the pattern reads a letter and its lower
    case alike. *)
Fixpoint case_blind (r : regex) : Prop :=
  match r with
  | Repeat p _ _ => forall c : ascii, p (lower_char c) = p c
  | Opt r' | Group r' => case_blind r'
  | Seq r1 r2 | Alt r1 r2 => case_blind r1 /\ case_blind r2
  | _ => True
  end.

(** A stand-in for the C library, linear in the angle, on which the
    locator can be run in examples. *)
Definition linear_libm : Libm := {|
  radians := fun x => x;
  sin := fun x => Return x;
  cos := fun _ => Return 1%float;
  atan2 := fun y _ => y;
  pow := fun x _ => Return (PrimFloat.mul x x);
  round := fun x _ => x
|}.

(** The answer of the locator for the facility [h] at distance [d]. *)
Definition answer {libm : Libm} (h : Facility) (d : float) : dict :=
  [ ("nearest_hospital", PStr (name h));
    ("phone", opt_str (py_or (ambulance_phone h) (phone h)));
    ("distance_km", PFloat (round d 2)) ].

(** ** Start-up and the bearer token *)

(** [os.environ] once [load_dotenv()] has run. *)
Definition environ : Type := string -> option string.

(** [os.environ.get(k, dflt)] *)
Definition environ_get (env : environ) (k dflt : string) : string :=
  match env k with
  | Some v => v
  | None => dflt
  end.

Record AccessToken : Type := {
  access_token : string;
  client_id : string;
  scopes : list string;
  expires_at : option Z
}.

(** The state of [SimpleBearerAuthProvider] that its method reads. *)
Record SimpleBearerAuthProvider : Type := { token : string }.

Definition load_access_token (self : SimpleBearerAuthProvider) (presented : string)
    : option AccessToken :=
  if String.eqb presented (token self)
  then Some {| access_token := presented;
               client_id := "puch-client";
               scopes := ["*"];
               expires_at := None |}
  else None.

(** What the module holds once it is loaded. *)
Record server : Type := {
  AUTH_TOKEN : string;
  MY_NUMBER : string;
  auth : SimpleBearerAuthProvider
}.

Inductive startup_error : Type :=
| RuntimeError (message : string).

(** The module-level statements, from the two settings to the server. *)
Definition startup (env : environ) : server + startup_error :=
  let auth_token := environ_get env "AUTH_TOKEN" "Q4v@8gP1zL#xD2mV!tN3rB7k" in
  let my_number := environ_get env "MY_NUMBER" "919840499661" in
  if negb (str_truthy auth_token) then inr (RuntimeError "AUTH_TOKEN not set")
  else if negb (str_truthy my_number) then inr (RuntimeError "MY_NUMBER not set")
  else inl {| AUTH_TOKEN := auth_token;
              MY_NUMBER := my_number;
              auth := {| token := auth_token |} |}.

(** The tool [validate]. *)
Definition validate (srv : server) : string := MY_NUMBER srv.

(** An environment given by a list of settings. *)
Definition environ_of (settings : list (string * string)) : environ :=
  fun k =>
    match find (fun kv => String.eqb (fst kv) k) settings with
    | Some kv => Some (snd kv)
    | None => None
    end.

(** The strings among the elements of a flags list. *)
Fixpoint strings_of (l : list pyval) : list string :=
  match l with
  | [] => []
  | PStr s :: l' => s :: strings_of l'
  | _ :: l' => strings_of l'
  end.

(** An age below 12 or above 75, for an age that is a number or absent;
    a boolean counts as 0 or 1. *)
Definition extreme_value (age : pyval) : bool :=
  match age with
  | PBool b => ((Z.b2z b <? 12) || (75 <? Z.b2z b))%bool
  | PInt z => ((z <? 12) || (75 <? z))%bool
  | PFloat f =>
      (PrimFloat.ltb f (float_of_int 12) || PrimFloat.ltb (float_of_int 75) f)%bool
  | _ => false
  end.

(** The phone as the specification words it: the ambulance phone if
    present, else the phone, else none. *)
Definition listed_phone (h : Facility) : option string :=
  match ambulance_phone h with
  | Some p => Some p
  | None => phone h
  end.

(** The phone as the code picks it: the ambulance phone if present and not
    empty, else the phone. *)
Definition dialled_phone (h : Facility) : option string :=
  match ambulance_phone h with
  | Some (String c p) => Some (String c p)
  | _ => phone h
  end.

(** The locator as the specification words it, for a given C library: on
    every non-empty registry it returns a facility of least distance, with
    the listed phone and the distance rounded to two decimals. *)
Definition locate_nearest_as_specified (libm : Libm) : Prop :=
  forall (severity : string) (lat0 lng0 : float) (hospitals : list Facility),
    hospitals <> [] ->
    exists (h : Facility) (dh : float),
      In h hospitals
      /\ distance lat0 lng0 (lat h) (lng h) = Return dh
      /\ (forall (x : Facility) (dx : float),
           In x hospitals ->
           distance lat0 lng0 (lat x) (lng x) = Return dx ->
           PrimFloat.ltb dx dh = false)
      /\ find_hospital_tool severity lat0 lng0 hospitals =
         Return [ ("nearest_hospital", PStr (name h));
                  ("phone", opt_str (listed_phone h));
                  ("distance_km", PFloat (round dh 2)) ].

(** * Properties *)

(** ** Sets kept as lists *)

Lemma truthy_filter {A : Type} (p : A -> bool) (l : list A) :
  truthy (filter p l) = existsb p l.
Proof.
  induction l as [|x l IH]; simpl; [reflexivity|].
  destruct (p x); simpl; [reflexivity | exact IH].
Qed.

Lemma truthy_length {A : Type} (l : list A) :
  truthy l = negb (Nat.eqb (List.length l) 0).
Proof. destruct l; reflexivity. Qed.

Lemma truthy_map {A B : Type} (g : A -> B) (l : list A) :
  truthy (map g l) = truthy l.
Proof. destruct l; reflexivity. Qed.

Lemma hashable_flag_values (flags : list string) :
  forallb hashable (flag_values flags) = true.
Proof. induction flags; simpl; auto. Qed.

Lemma py_set_flag_values (flags : list string) :
  py_set (flag_values flags) = Return (flag_values flags).
Proof. unfold py_set. now rewrite hashable_flag_values. Qed.

Lemma or_self_flags (l : list pyval) : (if truthy l then l else []) = l.
Proof. destruct l; reflexivity. Qed.

Lemma mem_In (x : string) (l : list string) : mem x l = true <-> In x l.
Proof.
  unfold mem. rewrite existsb_exists. split.
  - intros [y [Hy He]]. apply String.eqb_eq in He. now subst.
  - intros H. exists x. split; [exact H | apply String.eqb_refl].
Qed.

(** The intersection test of the code and the one of the rules agree. *)
Lemma set_and_intersects (flags cat : list string) :
  truthy (set_and (flag_values flags) cat) = intersects flags cat.
Proof.
  unfold set_and. rewrite truthy_filter.
  apply Bool.eq_iff_eq_true. unfold intersects, flag_values.
  rewrite !existsb_exists. split.
  - intros [v [Hv Hc]]. apply in_map_iff in Hv. destruct Hv as [x [<- Hx]].
    apply existsb_exists in Hc. destruct Hc as [c [Hc He]]. simpl in He.
    apply String.eqb_eq in He. subst c.
    exists x. split; [exact Hc|]. destruct (in_dec string_dec x flags); tauto.
  - intros [c [Hc Hin]]. destruct (in_dec string_dec c flags) as [Hf|]; [|discriminate].
    exists (PStr c). split; [now apply in_map|].
    apply existsb_exists. exists c. split; [exact Hc|]. simpl. apply String.eqb_refl.
Qed.

Lemma intersects_In (flags cat : list string) :
  intersects flags cat = true <-> exists c, In c cat /\ In c flags.
Proof.
  unfold intersects. rewrite existsb_exists. split.
  - intros [c [Hc H]]. destruct (in_dec string_dec c flags); [eauto | discriminate].
  - intros [c [Hc H]]. exists c. split; [exact Hc|].
    destruct (in_dec string_dec c flags); tauto.
Qed.

(** On typed arguments [_level_from_flags] never raises, and its value is
    spelled out by the three tests. *)
Lemma level_typed (flags : list string) (age : option Z) :
  _level_from_flags (flag_values flags) (opt_int age) =
  Return
    (if intersects flags critical then "Critical"
     else if intersects flags als then "ALS"
     else if (match age with
              | Some a => (a <? 12) || (75 <? a)
              | None => false
              end && truthy flags)%bool then "ALS"
     else if truthy flags then "BLS" else "General").
Proof.
  unfold _level_from_flags. rewrite or_self_flags, py_set_flag_values.
  cbn [bind]. rewrite !set_and_intersects.
  destruct (intersects flags critical); [reflexivity|].
  destruct (intersects flags als); [reflexivity|].
  unfold escalates, flag_values. rewrite !truthy_map.
  destruct age as [a|]; simpl; [|reflexivity].
  destruct (a <? 12); simpl; [destruct (truthy flags); reflexivity|].
  destruct (75 <? a); simpl; destruct (truthy flags); reflexivity.
Qed.

(** ** Classification *)

(** C3: on every flag set and every optional age, the classifier returns
    the level that the five ordered rules of the specification give; an
    empty flag set gives General whatever the age. *)
Theorem C3_classify_first_matching_rule :
  (forall (flags : list string) (age : option Z),
      _level_from_flags (flag_values flags) (opt_int age) =
      Return (level_name (classify_rules flags age)))
  /\ (forall age : option Z,
      _level_from_flags (flag_values []) (opt_int age) = Return "General").
Proof.
  split.
  - intros flags age. rewrite level_typed. unfold classify_rules.
    fold critical. fold als. rewrite <- truthy_length.
    destruct (intersects flags critical); [reflexivity|].
    destruct (intersects flags als); [reflexivity|].
    replace (match age with Some a => (a <? 12) || (a >? 75) | None => false end)%bool
      with (match age with Some a => (a <? 12) || (75 <? a) | None => false end)%bool
      by (destruct age; [rewrite Z.gtb_ltb|]; reflexivity).
    destruct (_ && _)%bool; [reflexivity|].
    destruct (truthy flags); reflexivity.
  - intros age. rewrite level_typed. simpl.
    destruct age; simpl; rewrite ?Bool.andb_false_r; reflexivity.
Qed.

Lemma same_flags_In (l1 l2 : list string) :
  same_flags l1 l2 = true -> forall x, In x l1 <-> In x l2.
Proof.
  unfold same_flags. intros H x. apply andb_prop in H. destruct H as [H1 H2].
  rewrite forallb_forall in H1, H2. split; intros Hx.
  - apply mem_In. now apply H1.
  - apply mem_In. now apply H2.
Qed.

Lemma intersects_added (flags flags' cat : list string) (c : string) :
  same_flags flags' (c :: flags) = true ->
  mem c cat = true ->
  intersects flags' cat = true.
Proof.
  intros Hs Hc. apply intersects_In. exists c. split.
  - now apply mem_In.
  - apply (same_flags_In _ _ Hs). now left.
Qed.

(** C6: adding a flag of the critical category to any flag set gives
    Critical; adding a flag of the ALS category to a flag set classified
    General or BLS gives a level that is at least ALS. *)
Theorem C6_classify_monotone_under_added_flag :
  (forall (flags flags' : list string) (age : option Z) (c : string),
      mem c critical = true ->
      same_flags flags' (c :: flags) = true ->
      _level_from_flags (flag_values flags') (opt_int age) = Return "Critical")
  /\ (forall (flags flags' : list string) (age : option Z) (a : string),
      mem a als = true ->
      same_flags flags' (a :: flags) = true ->
      (_level_from_flags (flag_values flags) (opt_int age) = Return "General" \/
       _level_from_flags (flag_values flags) (opt_int age) = Return "BLS") ->
      exists l : SeverityLevel,
        _level_from_flags (flag_values flags') (opt_int age) = Return (level_name l)
        /\ (urgency ALS <= urgency l)%nat).
Proof.
  split.
  - intros flags flags' age c Hc Hs. rewrite level_typed.
    now rewrite (intersects_added flags flags' critical c Hs Hc).
  - intros flags flags' age a Ha Hs _. rewrite level_typed.
    rewrite (intersects_added flags flags' als a Hs Ha).
    destruct (intersects flags' critical).
    + exists Critical. split; [reflexivity | simpl; lia].
    + exists ALS. split; [reflexivity | simpl; lia].
Qed.

Lemma C6_witness :
  _level_from_flags (flag_values ["bleeding"; "fever"]) (opt_int (Some 30)) =
    Return "Critical"
  /\ exists l : SeverityLevel,
       _level_from_flags (flag_values ["fever"; "seizure"]) (opt_int None) =
         Return (level_name l)
       /\ (urgency ALS <= urgency l)%nat.
Proof.
  split.
  - apply (proj1 C6_classify_monotone_under_added_flag ["fever"] _ _ "bleeding");
      reflexivity.
  - apply (proj2 C6_classify_monotone_under_added_flag ["fever"] _ _ "seizure");
      [reflexivity | reflexivity | right; reflexivity].
Defined.

(** ** Strings *)

Lemma lower_app (a b : string) : lower (a ++ b) = lower a ++ lower b.
Proof. induction a as [|c a IH]; simpl; [reflexivity | now rewrite IH]. Qed.

Lemma prefix_app (p b : string) : prefix p (p ++ b) = true.
Proof.
  induction p as [|c p IH]; simpl; [now destruct b|].
  destruct (ascii_dec c c) as [_|N]; [exact IH | now elim N].
Qed.

Lemma contains_prefix (p s : string) : prefix p s = true -> contains p s = true.
Proof. intros H. destruct s; simpl in *; rewrite H; reflexivity. Qed.

Lemma contains_app (p a b : string) : contains p (a ++ p ++ b) = true.
Proof.
  induction a as [|c a IH]; simpl.
  - apply contains_prefix, prefix_app.
  - rewrite IH. apply Bool.orb_true_r.
Qed.

Lemma rstrip_truthy (s : string) : str_truthy (rstrip s) = negb (all_space s).
Proof.
  induction s as [|c s IH]; simpl; [reflexivity|].
  destruct (rstrip s) eqn:E; simpl in *.
  - destruct (all_space s); [|discriminate].
    destruct (isspace c); reflexivity.
  - destruct (all_space s); [discriminate|].
    now rewrite Bool.andb_false_r.
Qed.

Lemma lstrip_all_space (s : string) : all_space (lstrip s) = all_space s.
Proof.
  induction s as [|c s IH]; simpl; [reflexivity|].
  destruct (isspace c) eqn:E; simpl; [exact IH | now rewrite E].
Qed.

(** [text.strip()] is empty exactly when the text is white space only. *)
Lemma strip_truthy (s : string) : str_truthy (strip s) = negb (all_space s).
Proof. unfold strip. now rewrite rstrip_truthy, lstrip_all_space. Qed.

Lemma all_space_app (a b : string) :
  all_space (a ++ b) = (all_space a && all_space b)%bool.
Proof.
  induction a as [|c a IH]; simpl; [reflexivity|].
  now rewrite IH, Bool.andb_assoc.
Qed.

(** No white-space character is turned into a letter by [str.lower]. *)
Lemma lower_char_space (c : ascii) :
  isspace c = true -> isspace (lower_char c) = true.
Proof.
  destruct c as [[] [] [] [] [] [] [] []]; vm_compute; congruence.
Qed.

Lemma all_space_lower (s : string) :
  all_space s = true -> all_space (lower s) = true.
Proof.
  induction s as [|c s IH]; simpl; [reflexivity|].
  intros H. apply andb_prop in H. destruct H as [Hc Hs].
  now rewrite (lower_char_space c Hc), IH.
Qed.

(** ** Flags found in a text *)

Lemma set_add_In (x y : string) (found : list string) :
  In y (set_add x found) <-> y = x \/ In y found.
Proof.
  unfold set_add. destruct (mem x found) eqn:E.
  - apply mem_In in E. split; [auto|]. intros [->|H]; assumption.
  - rewrite in_app_iff. simpl. intuition congruence.
Qed.

Lemma set_add_NoDup (x : string) (found : list string) :
  NoDup found -> NoDup (set_add x found).
Proof.
  intros H. unfold set_add. destruct (mem x found) eqn:E; [exact H|].
  assert (Hx : ~ In x found).
  { intros Hin. apply mem_In in Hin. congruence. }
  clear E. induction H as [|y l Hy Hl IH]; simpl.
  - constructor; [intros []|constructor].
  - constructor.
    + rewrite in_app_iff. simpl. intros [H1|[H1|[]]]; [contradiction|].
      subst. apply Hx. now left.
    + apply IH. intros Hin. apply Hx. now right.
Qed.

Lemma any_phrase_In (phrases : list string) (low : string) :
  any_phrase phrases low = true <-> exists p, In p phrases /\ contains p low = true.
Proof. unfold any_phrase. apply existsb_exists. Qed.

Lemma scan_In (low : string) (items : list (string * list string))
    (found : list string) (c : string) :
  In c (scan low items found) <->
  In c found \/
  exists phrases, In (c, phrases) items /\ any_phrase phrases low = true.
Proof.
  unfold scan. revert found.
  induction items as [|[flag phrases] items IH]; intros found; simpl.
  - split; [auto|]. intros [H|[ph [[] _]]]. exact H.
  - rewrite IH. destruct (any_phrase phrases low) eqn:E.
    + rewrite set_add_In. split.
      * intros [[->|H]|[ph [Hin Hp]]]; eauto 6.
      * intros [H|[ph [[Heq|Hin] Hp]]]; eauto 6.
        inversion Heq; subst. auto.
    + split.
      * intros [H|[ph [Hin Hp]]]; eauto 6.
      * intros [H|[ph [[Heq|Hin] Hp]]]; eauto 6.
        inversion Heq; subst. congruence.
Qed.

Lemma scan_NoDup (low : string) (items : list (string * list string))
    (found : list string) :
  NoDup found -> NoDup (scan low items found).
Proof.
  unfold scan. revert found.
  induction items as [|[flag phrases] items IH]; intros found H; simpl; [exact H|].
  apply IH. destruct (any_phrase phrases low); [now apply set_add_NoDup | exact H].
Qed.

(** ** Sorting *)

Definition le_str (x y : string) : Prop := String.leb x y = true.

Lemma leb_false_flip (x y : string) : String.leb x y = false -> String.leb y x = true.
Proof. intros H. destruct (String.leb_total x y); congruence. Qed.

Lemma leb_neq_ltb (x y : string) :
  String.leb x y = true -> x <> y -> String.ltb x y = true.
Proof.
  unfold String.leb, String.ltb. intros H N.
  destruct (String.compare x y) eqn:E; try reflexivity; try discriminate.
  apply String.compare_eq_iff in E. contradiction.
Qed.

Lemma insert_sorted_In (x y : string) (l : list string) :
  In y (insert_sorted x l) <-> y = x \/ In y l.
Proof.
  induction l as [|z l IH]; simpl.
  - intuition congruence.
  - destruct (String.leb x z); simpl; [intuition congruence|].
    rewrite IH. intuition congruence.
Qed.

Lemma sorted_In (y : string) (l : list string) : In y (sorted l) <-> In y l.
Proof.
  unfold sorted. induction l as [|x l IH]; simpl; [reflexivity|].
  rewrite insert_sorted_In, IH. intuition congruence.
Qed.

Lemma insert_sorted_HdRel (x z : string) (l : list string) :
  le_str z x -> HdRel le_str z l -> HdRel le_str z (insert_sorted x l).
Proof.
  intros Hzx H. destruct l as [|y l]; simpl; [now constructor|].
  inversion H; subst. destruct (String.leb x y); now constructor.
Qed.

Lemma insert_sorted_Sorted (x : string) (l : list string) :
  Sorted le_str l -> Sorted le_str (insert_sorted x l).
Proof.
  induction 1 as [|z l Hl IH Hz]; simpl.
  - repeat constructor.
  - destruct (String.leb x z) eqn:E.
    + constructor; [now constructor | now constructor].
    + constructor; [exact IH|].
      apply insert_sorted_HdRel; [now apply leb_false_flip | exact Hz].
Qed.

Lemma sorted_Sorted (l : list string) : Sorted le_str (sorted l).
Proof.
  unfold sorted. induction l as [|x l IH]; simpl; [constructor|].
  now apply insert_sorted_Sorted.
Qed.

Lemma insert_sorted_NoDup (x : string) (l : list string) :
  ~ In x l -> NoDup l -> NoDup (insert_sorted x l).
Proof.
  intros Hx H. induction H as [|z l Hz Hl IH]; simpl.
  - constructor; [intros []|constructor].
  - destruct (String.leb x z).
    + constructor; [exact Hx | now constructor].
    + constructor.
      * rewrite insert_sorted_In. intros [->|Hin]; [apply Hx; now left | contradiction].
      * apply IH. intros Hin. apply Hx. now right.
Qed.

Lemma sorted_NoDup (l : list string) : NoDup l -> NoDup (sorted l).
Proof.
  unfold sorted. induction 1 as [|x l Hx Hl IH]; simpl; [constructor|].
  apply insert_sorted_NoDup; [|exact IH].
  intros Hin. apply Hx. now apply (sorted_In x l).
Qed.

Lemma Sorted_NoDup_ascending (l : list string) :
  Sorted le_str l -> NoDup l -> ascending l.
Proof.
  unfold ascending. induction 1 as [|x l Hl IH Hx]; intros Hn; [constructor|].
  inversion Hn as [|? ? Hnx Hnl]; subst. constructor; [now apply IH|].
  destruct Hx as [|y l' Hxy]; constructor.
  apply leb_neq_ltb; [exact Hxy|]. intros ->. apply Hnx. now left.
Qed.

(** What [_flags_from_text] returns: the matched categories, each once,
    in ascending order. *)
Lemma flags_from_text_In (text c : string) :
  In c (_flags_from_text text) <-> matched text c.
Proof.
  unfold _flags_from_text, matched. rewrite sorted_In, scan_In. simpl In at 1.
  split.
  - intros [[]|[ph [Hin Hp]]]. apply any_phrase_In in Hp.
    destruct Hp as [p [Hp Hc]]. now exists ph, p.
  - intros [ph [p [Hin [Hp Hc]]]]. right. exists ph. split; [exact Hin|].
    apply any_phrase_In. now exists p.
Qed.

Lemma flags_from_text_ascending (text : string) :
  ascending (_flags_from_text text).
Proof.
  unfold _flags_from_text. apply Sorted_NoDup_ascending.
  - apply sorted_Sorted.
  - apply sorted_NoDup, scan_NoDup. constructor.
Qed.

(** ** Age extraction *)

(** The range test of [_extract_age] changes nothing: whatever number
    group 1 holds is returned. *)
Lemma extract_age_unfiltered (text : string) :
  _extract_age text =
  match search _AGE_RX text with
  | None => None
  | Some m => int (group_1 m)
  end.
Proof.
  unfold _extract_age. destruct (search _AGE_RX text) as [m|]; [|reflexivity].
  destruct (int (group_1 m)) as [age|]; [|reflexivity].
  now destruct ((0 <=? age) && (age <=? 120))%bool.
Qed.

Example extract_age_34 : _extract_age "a 34 yr old patient" = Some 34.
Proof. vm_compute. reflexivity. Qed.

Example extract_age_absent : _extract_age "no age mentioned" = None.
Proof. vm_compute. reflexivity. Qed.

Example extract_age_first_match : _extract_age "45 yearsold, 3 Yrs" = Some 3.
Proof. vm_compute. reflexivity. Qed.

(** C1: on the text ["age 150 years"] without an age hint the matched
    number 150 lies outside 0..120, and the extractor returns
    age_years = 150 where the specification asks for none. *)
Theorem C1_age_out_of_range_is_returned :
  _extract_age "age 150 years" = Some 150
  /\ exists d : dict,
       symptom_extract_tool "age 150 years" None = Return d
       /\ dict_lookup d "age_years" = Some (PInt 150).
Proof.
  split; [vm_compute; reflexivity|].
  eexists. split; vm_compute; reflexivity.
Qed.

(** ** Extraction followed by classification *)

Lemma redflags_of_signals (age : option Z) (text : string)
    (flags : list string) (symptoms : pyval) :
  _redflags_core
    (PDict [ ("age_years", opt_int age); ("free_text", PStr text);
             ("flags", PList (flag_values flags)); ("symptoms", symptoms) ]) =
  (level <- _level_from_flags (flag_values flags) (opt_int age) ;;
   Return [ ("level_of_care", PStr level);
            ("flags", PList (flag_values flags));
            ("age_years", opt_int age) ]).
Proof. reflexivity. Qed.

Lemma extract_returns (text : string) (age_years : option Z) :
  all_space text = false ->
  symptom_extract_tool text age_years =
  Return [ ("age_years",
            opt_int (match age_years with
                     | Some a => Some a
                     | None => _extract_age text
                     end));
           ("free_text", PStr text);
           ("flags", PList (flag_values (_flags_from_text text)));
           ("symptoms", PList (flag_values (_flags_from_text text))) ].
Proof.
  intros H. unfold symptom_extract_tool. now rewrite strip_truthy, H.
Qed.

Lemma occurrence_not_blank (a u b p : string) :
  lower u = p -> all_space p = false -> all_space (a ++ u ++ b) = false.
Proof.
  intros Hu Hp. rewrite !all_space_app.
  destruct (all_space u) eqn:E.
  - apply all_space_lower in E. congruence.
  - now rewrite Bool.andb_false_r.
Qed.

Lemma occurrence_matched (a u b c : string) (phrases : list string) :
  lower u = c -> In (c, phrases) _EMS_SYMPTOMS -> In c phrases ->
  matched (a ++ u ++ b) c.
Proof.
  intros Hu Hi Hp. exists phrases, c. repeat split; try assumption.
  rewrite !lower_app, Hu. apply contains_app.
Qed.

(** C5: a text in which "unconscious" or "bleeding" occurs, in any letter
    case, is classified Critical by extraction followed by classification,
    whatever else the text holds and whatever age is given. *)
Theorem C5_unconscious_or_bleeding_is_critical :
  forall (text a u b : string) (age_years : option Z),
    text = a ++ u ++ b ->
    lower u = "unconscious" \/ lower u = "bleeding" ->
    exists d : dict,
      pipeline text age_years = Return d
      /\ dict_lookup d "level_of_care" = Some (PStr "Critical").
Proof.
  intros text a u b age_years -> Hu.
  assert (Hblank : all_space (a ++ u ++ b) = false).
  { destruct Hu as [Hu|Hu];
      apply (occurrence_not_blank a u b _ Hu); reflexivity. }
  assert (Hcrit : intersects (_flags_from_text (a ++ u ++ b)) critical = true).
  { apply intersects_In. destruct Hu as [Hu|Hu].
    - exists "unconscious". split; [simpl; auto|].
      apply flags_from_text_In.
      eapply occurrence_matched; [exact Hu | simpl; auto 10 | simpl; auto].
    - exists "bleeding". split; [simpl; auto|].
      apply flags_from_text_In.
      eapply occurrence_matched; [exact Hu | simpl; auto 10 | simpl; auto]. }
  unfold pipeline, redflags_validate.
  rewrite (extract_returns _ _ Hblank). cbn [bind].
  rewrite redflags_of_signals, level_typed, Hcrit. cbn [bind].
  eexists. split; reflexivity.
Qed.

Lemma C5_witness :
  exists d : dict,
    pipeline "He is UNCONSCIOUS and has chest pain" (Some 30) = Return d
    /\ dict_lookup d "level_of_care" = Some (PStr "Critical").
Proof.
  apply (C5_unconscious_or_bleeding_is_critical
           "He is UNCONSCIOUS and has chest pain"
           "He is " "UNCONSCIOUS" " and has chest pain" (Some 30)).
  - reflexivity.
  - left. reflexivity.
Defined.

(** C10: for a text that is not blank the extractor returns a field
    "symptoms" equal to the field "flags", both being the ascending list of
    the matched categories, and "free_text" is the text as given. *)
Theorem C10_symptoms_equals_flags :
  forall (text : string) (age_years : option Z),
    str_truthy (strip text) = true ->
    exists (d : dict) (flags : list string),
      symptom_extract_tool text age_years = Return d
      /\ dict_lookup d "flags" = Some (PList (flag_values flags))
      /\ dict_lookup d "symptoms" = Some (PList (flag_values flags))
      /\ dict_lookup d "free_text" = Some (PStr text)
      /\ ascending flags
      /\ (forall c : string, In c flags <-> matched text c).
Proof.
  intros text age_years H.
  assert (Hblank : all_space text = false).
  { rewrite strip_truthy in H. now destruct (all_space text). }
  exists [ ("age_years",
            opt_int (match age_years with
                     | Some a => Some a
                     | None => _extract_age text
                     end));
           ("free_text", PStr text);
           ("flags", PList (flag_values (_flags_from_text text)));
           ("symptoms", PList (flag_values (_flags_from_text text))) ].
  exists (_flags_from_text text).
  split; [now apply extract_returns|].
  repeat split; try reflexivity.
  - apply flags_from_text_ascending.
  - apply flags_from_text_In.
  - apply flags_from_text_In.
Qed.

Lemma C10_witness :
  exists (d : dict) (flags : list string),
    symptom_extract_tool "High fever, chest pain" None = Return d
    /\ dict_lookup d "flags" = Some (PList (flag_values flags))
    /\ dict_lookup d "symptoms" = Some (PList (flag_values flags))
    /\ dict_lookup d "free_text" = Some (PStr "High fever, chest pain")
    /\ ascending flags
    /\ (forall c : string, In c flags <-> matched "High fever, chest pain" c).
Proof.
  apply (C10_symptoms_equals_flags "High fever, chest pain" None).
  reflexivity.
Defined.

Example extract_fever_chest_pain :
  symptom_extract_tool "High fever, chest pain" None =
  Return [ ("age_years", PNone); ("free_text", PStr "High fever, chest pain");
           ("flags", PList [PStr "chest_pain"; PStr "fever"; PStr "pain"]);
           ("symptoms", PList [PStr "chest_pain"; PStr "fever"; PStr "pain"]) ].
Proof. vm_compute. reflexivity. Qed.

Example extract_blank_text :
  symptom_extract_tool "   " (Some 40) =
  Raise (McpError INVALID_PARAMS "text is required").
Proof. reflexivity. Qed.

(** ** Classification of untyped input *)

Lemma py_list_not_iterable (v : pyval) :
  iterable v = false -> py_list v = Raise TypeError.
Proof. destruct v; simpl; congruence. Qed.

Lemma escalates_empty (age : pyval) :
  number_or_none age = true -> escalates age [] = Return false.
Proof.
  unfold escalates. destruct age; simpl; try discriminate; intros _;
    try reflexivity.
  - destruct (Z.b2z b <? 12); simpl; [reflexivity|].
    now rewrite Bool.andb_false_r.
  - destruct (z <? 12); simpl; [reflexivity|].
    now rewrite Bool.andb_false_r.
  - destruct (PrimFloat.ltb f (float_of_int 12)); simpl; [reflexivity|].
    now rewrite Bool.andb_false_r.
Qed.

Lemma escalates_number (age : pyval) (f : list pyval) :
  number_or_none age = true -> exists e : bool, escalates age f = Return e.
Proof.
  unfold escalates. destruct age; simpl; try discriminate; intros _; eauto.
  - destruct (Z.b2z b <? 12); simpl; eauto.
  - destruct (z <? 12); simpl; eauto.
  - destruct (PrimFloat.ltb f0 (float_of_int 12)); simpl; eauto.
Qed.

Lemma level_no_flags (age : pyval) :
  number_or_none age = true -> _level_from_flags [] age = Return "General".
Proof.
  intros H. unfold _level_from_flags. simpl. now rewrite (escalates_empty age H).
Qed.

Lemma level_hashable (flags : list pyval) (age : pyval) :
  forallb hashable flags = true -> number_or_none age = true ->
  exists level : string, _level_from_flags flags age = Return level.
Proof.
  intros Hh Ha. unfold _level_from_flags, py_set.
  rewrite or_self_flags, Hh. cbn [bind].
  destruct (truthy (set_and flags critical)); [eauto|].
  destruct (truthy (set_and flags als)); [eauto|].
  destruct (escalates_number age flags Ha) as [e ->]. cbn [bind].
  destruct e; eauto.
Qed.

Lemma level_unhashable (flags : list pyval) (age : pyval) :
  forallb hashable flags = false -> _level_from_flags flags age = Raise TypeError.
Proof.
  intros Hh. unfold _level_from_flags, py_set.
  rewrite or_self_flags, Hh. reflexivity.
Qed.

Lemma py_list_empty (v : pyval) :
  empty_collection v = true -> py_list v = Return [].
Proof.
  destruct v as [| | | |s|l|d]; simpl; try discriminate.
  - destruct s; [reflexivity | discriminate].
  - destruct l; [reflexivity | discriminate].
  - destruct d; [reflexivity | discriminate].
Qed.

(** C9, as stated, fails: a dictionary without the key "flags" whose
    age_years is a string is not classified General; the comparison of the
    age with 12 raises a TypeError. *)
Lemma C9_missing_flags_with_text_age_fails :
  dict_lookup [("age_years", PStr "old")] "flags" = None
  /\ _redflags_core (PDict [("age_years", PStr "old")]) = Raise TypeError
  /\ forall d : dict,
       _redflags_core (PDict [("age_years", PStr "old")]) <> Return d.
Proof.
  split; [reflexivity|]. split; [reflexivity|]. intros d H. discriminate H.
Qed.

Lemma level_no_flags_bad_age (age : pyval) :
  number_or_none age = false -> _level_from_flags [] age = Raise TypeError.
Proof. destruct age; simpl; try discriminate; reflexivity. Qed.

(** C9, amended: a dictionary without the key "flags", or with an empty
    collection under it, is classified without failure when its age_years
    is absent, null or a number: the flags are empty, the level of care is
    General and age_years is handed back as given. With an age_years of
    another type it fails with a TypeError. *)
Theorem C9_missing_flags_is_general :
  forall d : dict,
    (dict_lookup d "flags" = None \/
     exists v : pyval, dict_lookup d "flags" = Some v /\ empty_collection v = true) ->
    (number_or_none (dict_get d "age_years") = true ->
     _redflags_core (PDict d) =
     Return [ ("level_of_care", PStr "General");
              ("flags", PList []);
              ("age_years", dict_get d "age_years") ])
    /\ (number_or_none (dict_get d "age_years") = false ->
        _redflags_core (PDict d) = Raise TypeError).
Proof.
  intros d Hf.
  assert (Hl : py_list match dict_lookup d "flags" with
                       | Some v => v
                       | None => PList []
                       end = Return []).
  { destruct Hf as [->|[v [-> Hv]]]; [reflexivity | now apply py_list_empty]. }
  split; intros Ha; unfold _redflags_core, dict_get_default at 1;
    rewrite Hl; cbn [bind].
  - rewrite (level_no_flags _ Ha). reflexivity.
  - rewrite (level_no_flags_bad_age _ Ha). reflexivity.
Qed.

Lemma C9_witness :
  (number_or_none (dict_get [("age_years", PInt 80)] "age_years") = true ->
   _redflags_core (PDict [("age_years", PInt 80)]) =
   Return [ ("level_of_care", PStr "General");
            ("flags", PList []);
            ("age_years", dict_get [("age_years", PInt 80)] "age_years") ])
  /\ (number_or_none (dict_get [("age_years", PInt 80)] "age_years") = false ->
      _redflags_core (PDict [("age_years", PInt 80)]) = Raise TypeError).
Proof.
  apply (C9_missing_flags_is_general [("age_years", PInt 80)]).
  left. reflexivity.
Defined.

Example redflags_empty_flag_list :
  _redflags_core (PDict [("flags", PList []); ("age_years", PNone)]) =
  Return [ ("level_of_care", PStr "General"); ("flags", PList []);
           ("age_years", PNone) ].
Proof. reflexivity. Qed.

Example redflags_fever_at_80 :
  _redflags_core (PDict [("flags", PList [PStr "fever"]); ("age_years", PInt 80)]) =
  Return [ ("level_of_care", PStr "ALS"); ("flags", PList [PStr "fever"]);
           ("age_years", PInt 80) ].
Proof. reflexivity. Qed.

(** C7, as stated, fails: a flags value that is a list of numbers is not
    a sequence of strings, yet the classifier does not fail on it. *)
Lemma C7_numbers_as_flags_are_accepted :
  str_sequence (PList [PInt 1; PInt 2]) = false
  /\ _redflags_core (PDict [("flags", PList [PInt 1; PInt 2])]) =
     Return [ ("level_of_care", PStr "BLS");
              ("flags", PList [PInt 1; PInt 2]);
              ("age_years", PNone) ]
  /\ forall e : exn,
       _redflags_core (PDict [("flags", PList [PInt 1; PInt 2])]) <> Raise e.
Proof.
  split; [reflexivity|]. split; [reflexivity|]. intros e H. discriminate H.
Qed.

Lemma strings_of_In (l : list pyval) (x : string) :
  In x (strings_of l) <-> In (PStr x) l.
Proof.
  induction l as [|v l IH]; simpl; [tauto|].
  destruct v; simpl; rewrite IH; intuition (try discriminate; try congruence).
Qed.

(** A category is met by a flags list exactly through its strings. *)
Lemma set_and_strings (l : list pyval) (cat : list string) :
  truthy (set_and l cat) = intersects (strings_of l) cat.
Proof.
  unfold set_and. rewrite truthy_filter. apply Bool.eq_iff_eq_true.
  rewrite existsb_exists, intersects_In. split.
  - intros [v [Hv Hc]]. apply existsb_exists in Hc. destruct Hc as [c [Hc He]].
    destruct v; simpl in He; try discriminate.
    apply String.eqb_eq in He. subst c.
    exists s. split; [exact Hc | now apply strings_of_In].
  - intros [c [Hc Hin]]. exists (PStr c). split; [now apply strings_of_In|].
    apply existsb_exists. exists c. split; [exact Hc|]. simpl. apply String.eqb_refl.
Qed.

Lemma escalates_value (age : pyval) (f : list pyval) :
  number_or_none age = true ->
  escalates age f = Return (extreme_value age && truthy f)%bool.
Proof.
  unfold escalates, extreme_value.
  destruct age; simpl; try discriminate; intros _; try reflexivity.
  - destruct (Z.b2z b <? 12); reflexivity.
  - destruct (z <? 12); reflexivity.
  - destruct (PrimFloat.ltb f0 (float_of_int 12)); reflexivity.
Qed.

(** The level of a list of hashable flags at an age that is a number or
    absent: the tests see the strings of the list, and any element counts
    as a flag present. *)
Lemma level_of_values (l : list pyval) (age : pyval) :
  forallb hashable l = true ->
  number_or_none age = true ->
  _level_from_flags l age =
  Return (level_name
            (decide_level (intersects (strings_of l) critical)
               (intersects (strings_of l) als)
               (extreme_value age) (truthy l))).
Proof.
  intros Hh Ha. unfold _level_from_flags, py_set.
  rewrite or_self_flags, Hh. cbn [bind].
  rewrite !set_and_strings, (escalates_value age l Ha). cbn [bind].
  unfold decide_level.
  destruct (intersects (strings_of l) critical); [reflexivity|].
  destruct (intersects (strings_of l) als); [reflexivity|].
  destruct (extreme_value age && truthy l)%bool; [reflexivity|].
  destruct (truthy l); reflexivity.
Qed.

(** C7, amended: the classifier fails with InvalidInput when its argument
    is not a dictionary; it fails with a TypeError when the flags value
    cannot be iterated or when a flag in the list is unhashable; every other
    flags list, of strings or not, is classified when the age is a number
    or absent, by the rules of the classifier: only its strings can meet a
    category, elements that are no strings meet none and count as a flag
    present. *)
Theorem C7_invalid_flags_amended :
  (forall structured : pyval,
      is_dict structured = false ->
      _redflags_core structured =
      Raise (McpError INVALID_PARAMS "structured must be an object"))
  /\ (forall (d : dict) (v : pyval),
      dict_lookup d "flags" = Some v ->
      iterable v = false ->
      _redflags_core (PDict d) = Raise TypeError)
  /\ (forall (d : dict) (l : list pyval),
      dict_lookup d "flags" = Some (PList l) ->
      forallb hashable l = false ->
      _redflags_core (PDict d) = Raise TypeError)
  /\ (forall (d : dict) (l : list pyval),
      dict_lookup d "flags" = Some (PList l) ->
      forallb hashable l = true ->
      number_or_none (dict_get d "age_years") = true ->
      _redflags_core (PDict d) =
      Return [ ("level_of_care",
                PStr (level_name
                        (decide_level
                           (intersects (strings_of l) ["unconscious"; "bleeding"])
                           (intersects (strings_of l)
                              ["chest_pain"; "breathlessness"; "seizure";
                               "stroke_signs"])
                           (extreme_value (dict_get d "age_years"))
                           (negb (Nat.eqb (List.length l) 0)))));
               ("flags", PList l);
               ("age_years", dict_get d "age_years") ]).
Proof.
  repeat split.
  - intros structured H. destruct structured; try reflexivity. discriminate H.
  - intros d v Hv Hi. unfold _redflags_core, dict_get_default.
    rewrite Hv, (py_list_not_iterable v Hi). reflexivity.
  - intros d l Hl Hh. unfold _redflags_core, dict_get_default.
    rewrite Hl. cbn [py_list bind]. now rewrite (level_unhashable l _ Hh).
  - intros d l Hl Hh Ha. unfold _redflags_core, dict_get_default at 1.
    rewrite Hl. cbn [py_list bind].
    rewrite (level_of_values l _ Hh Ha). cbn [bind].
    rewrite <- truthy_length. reflexivity.
Qed.

Lemma C7_witness :
  _redflags_core (PInt 5) =
    Raise (McpError INVALID_PARAMS "structured must be an object")
  /\ _redflags_core (PDict [("flags", PInt 5)]) = Raise TypeError
  /\ _redflags_core (PDict [("flags", PList [PList []])]) = Raise TypeError
  /\ _redflags_core (PDict [("flags", PList [PInt 3; PStr "seizure"])]) =
     Return [ ("level_of_care", PStr "ALS");
              ("flags", PList [PInt 3; PStr "seizure"]);
              ("age_years", PNone) ].
Proof.
  destruct C7_invalid_flags_amended as [H1 [H2 [H3 H4]]].
  split; [apply (H1 (PInt 5)); reflexivity|].
  split; [apply (H2 [("flags", PInt 5)] (PInt 5)); reflexivity|].
  split; [apply (H3 [("flags", PList [PList []])] [PList []]); reflexivity|].
  apply (H4 [("flags", PList [PInt 3; PStr "seizure"])] [PInt 3; PStr "seizure"]);
    reflexivity.
Defined.

(** ** The locator *)

Section LocatorFacts.

Context {libm : Libm}.

Lemma min_loop_member (key : Facility -> res float) (l : list Facility) :
  forall (best : Facility) (best_key : float) (h : Facility),
    min_loop key best best_key l = Return h -> h = best \/ In h l.
Proof.
  induction l as [|x l IH]; simpl; intros best best_key h H.
  - inversion H. now left.
  - destruct (key x) as [k|e]; simpl in H; [|discriminate].
    destruct (PrimFloat.ltb k best_key); apply IH in H; intuition.
Qed.

(** Whatever [min] returns is one of the facilities. *)
Lemma py_min_member (key : Facility -> res float) (l : list Facility)
    (h : Facility) :
  py_min key l = Return h -> In h l.
Proof.
  destruct l as [|x l]; simpl; [discriminate|].
  destruct (key x) as [k|e]; simpl; [|discriminate].
  intros H. apply min_loop_member in H. intuition.
Qed.

(** An empty [ambulance_phone] gives way to [phone], like a missing one. *)
Lemma py_or_empty_string (b : option string) : py_or (Some EmptyString) b = b.
Proof. reflexivity. Qed.

Lemma py_or_non_empty (c : ascii) (s : string) (b : option string) :
  py_or (Some (String c s)) b = Some (String c s).
Proof. reflexivity. Qed.

(** The shape of a successful answer: the facility [min] chose, its
    phone, and its distance after [round(d, 2)]. *)
Lemma find_hospital_result (severity : string) (lat0 lng0 : float)
    (hospitals : list Facility) (nearest : Facility) (d : float) :
  py_min (fun h => distance lat0 lng0 (lat h) (lng h)) hospitals = Return nearest ->
  distance lat0 lng0 (lat nearest) (lng nearest) = Return d ->
  find_hospital_tool severity lat0 lng0 hospitals =
  Return [ ("nearest_hospital", PStr (name nearest));
           ("phone", opt_str (py_or (ambulance_phone nearest) (phone nearest)));
           ("distance_km", PFloat (round d 2)) ].
Proof.
  intros Hmin Hd. unfold find_hospital_tool. rewrite Hmin. cbn [bind].
  rewrite Hd. reflexivity.
Qed.

End LocatorFacts.

(** C2, as stated, fails: the failure of the locator on an empty registry
    is no error of its own. It is the ValueError of the interpreter, the
    one a square root of a negative number raises, and with it a registry
    that is not empty can have the very same outcome; the tool reports no
    error of the protocol for it. *)
Lemma C2_empty_registry_error_is_not_its_own :
  @find_hospital_tool linear_libm "ALS" 0 0 [] = Raise ValueError
  /\ math_sqrt (-1)%float = Raise ValueError
  /\ @find_hospital_tool linear_libm "ALS" 0 0
       [ {| name := "A"; lat := 0; lng := 0;
            phone := Some "108"; ambulance_phone := None |};
         {| name := "C"; lat := 4; lng := 0;
            phone := Some "109"; ambulance_phone := None |} ] =
     @find_hospital_tool linear_libm "ALS" 0 0 []
  /\ forall (code : Z) (message : string),
       @find_hospital_tool linear_libm "ALS" 0 0 [] <> Raise (McpError code message).
Proof.
  split; [reflexivity|]. split; [reflexivity|].
  split; [vm_compute; reflexivity|]. intros code message H. discriminate H.
Qed.

(** C2, amended: with an empty facility sequence the locator fails,
    whatever the severity label and the coordinates, with the ValueError
    that [min] raises for an empty sequence; it is not an error that the
    tool reports itself, such as the invalid-parameters error. *)
Theorem C2_empty_registry_fails :
  forall (libm : Libm) (severity : string) (lat0 lng0 : float),
    find_hospital_tool severity lat0 lng0 [] = Raise ValueError
    /\ forall (code : Z) (message : string),
         find_hospital_tool severity lat0 lng0 [] <> Raise (McpError code message).
Proof.
  intros libm severity lat0 lng0. split; [reflexivity|].
  intros code message H. discriminate H.
Qed.

(** C8: the severity label has no influence on the locator: with the same
    coordinates and the same facilities, two labels give the same outcome,
    hence the same nearest_hospital, phone and distance_km. *)
Theorem C8_severity_does_not_influence_locator :
  forall (libm : Libm) (severity1 severity2 : string) (lat0 lng0 : float)
         (hospitals : list Facility),
    find_hospital_tool severity1 lat0 lng0 hospitals =
    find_hospital_tool severity2 lat0 lng0 hospitals.
Proof. intros libm severity1 severity2 lat0 lng0 hospitals. reflexivity. Qed.

(** ** Further evaluations *)

Example redflags_fractional_age :
  _redflags_core
    (PDict [("flags", PList [PStr "fever"]); ("age_years", PFloat 80.5%float)]) =
  Return [ ("level_of_care", PStr "ALS"); ("flags", PList [PStr "fever"]);
           ("age_years", PFloat 80.5%float) ].
Proof. vm_compute. reflexivity. Qed.

(** An age that is no number cannot be compared with 12. *)
Example redflags_text_age :
  _redflags_core (PDict [("age_years", PStr "old")]) = Raise TypeError.
Proof. reflexivity. Qed.

Example redflags_null_flags :
  _redflags_core (PDict [("flags", PNone)]) = Raise TypeError.
Proof. reflexivity. Qed.

Example level_critical_wins :
  _level_from_flags (flag_values ["bleeding"; "chest_pain"; "fever"]) (PInt 30) =
  Return "Critical".
Proof. reflexivity. Qed.

Example level_no_escalation_without_flag :
  _level_from_flags [] (PInt 80) = Return "General".
Proof. reflexivity. Qed.

Example pipeline_fever_at_80 :
  exists d : dict,
    pipeline "fever since morning, 80 years old" None = Return d
    /\ dict_lookup d "level_of_care" = Some (PStr "ALS")
    /\ dict_lookup d "age_years" = Some (PInt 80).
Proof. eexists. repeat split; vm_compute; reflexivity. Qed.


(** * Further properties of the code *)

(** ** The classifier on typed flags *)

Lemma level_decided (flags : list string) (age : option Z) :
  _level_from_flags (flag_values flags) (opt_int age) =
  Return (level_name
            (decide_level (intersects flags critical) (intersects flags als)
               (extreme_age age) (truthy flags))).
Proof.
  rewrite level_typed. unfold decide_level, extreme_age.
  destruct (intersects flags critical); [reflexivity|].
  destruct (intersects flags als); [reflexivity|].
  destruct (_ && _)%bool; [reflexivity|].
  destruct (truthy flags); reflexivity.
Qed.

Lemma sub_flags_In (l1 l2 : list string) :
  sub_flags l1 l2 = true -> forall x, In x l1 -> In x l2.
Proof.
  unfold sub_flags. rewrite forallb_forall. intros H x Hx.
  apply mem_In. now apply H.
Qed.

Lemma intersects_sub (l1 l2 cat : list string) :
  sub_flags l1 l2 = true ->
  intersects l1 cat = true -> intersects l2 cat = true.
Proof.
  intros Hs H. apply intersects_In in H. destruct H as [c [Hc Hin]].
  apply intersects_In. exists c. split; [exact Hc|].
  now apply (sub_flags_In l1 l2 Hs).
Qed.

Lemma truthy_sub (l1 l2 : list string) :
  sub_flags l1 l2 = true -> truthy l1 = true -> truthy l2 = true.
Proof.
  intros Hs H. destruct l1 as [|x l1]; [discriminate|].
  assert (Hx : In x l2) by (apply (sub_flags_In _ _ Hs); now left).
  destruct l2; [destruct Hx | reflexivity].
Qed.

Lemma same_flags_sub (l1 l2 : list string) :
  same_flags l1 l2 = true -> sub_flags l1 l2 = true /\ sub_flags l2 l1 = true.
Proof. unfold same_flags, sub_flags. intros H. now apply andb_prop in H. Qed.

Lemma bool_eq_of_imp (b1 b2 : bool) :
  (b1 = true -> b2 = true) -> (b2 = true -> b1 = true) -> b1 = b2.
Proof. destruct b1, b2; intuition congruence. Qed.

(** X7: Only the set of flags counts: their order and repetitions in the list
    do not change the level. *)
Theorem level_depends_on_flag_set :
  forall (l1 l2 : list string) (age : option Z),
    same_flags l1 l2 = true ->
    _level_from_flags (flag_values l1) (opt_int age) =
    _level_from_flags (flag_values l2) (opt_int age).
Proof.
  intros l1 l2 age H. apply same_flags_sub in H. destruct H as [H12 H21].
  rewrite !level_typed.
  rewrite (bool_eq_of_imp _ _ (intersects_sub l1 l2 critical H12)
                              (intersects_sub l2 l1 critical H21)).
  rewrite (bool_eq_of_imp _ _ (intersects_sub l1 l2 als H12)
                              (intersects_sub l2 l1 als H21)).
  rewrite (bool_eq_of_imp _ _ (truthy_sub l1 l2 H12) (truthy_sub l2 l1 H21)).
  reflexivity.
Qed.

Lemma level_depends_on_flag_set_witness :
  _level_from_flags (flag_values ["fever"; "seizure"; "fever"]) (opt_int (Some 40)) =
  _level_from_flags (flag_values ["seizure"; "fever"]) (opt_int (Some 40)).
Proof.
  apply (level_depends_on_flag_set ["fever"; "seizure"; "fever"] ["seizure"; "fever"]).
  reflexivity.
Defined.

(** X8: More flags never give a lower level: when every flag of one list is in
    another, the level of the second is at least that of the first, at the
    same age. *)
Theorem level_monotone_in_flags :
  forall (l1 l2 : list string) (age : option Z),
    sub_flags l1 l2 = true ->
    exists v1 v2 : SeverityLevel,
      _level_from_flags (flag_values l1) (opt_int age) = Return (level_name v1)
      /\ _level_from_flags (flag_values l2) (opt_int age) = Return (level_name v2)
      /\ (urgency v1 <= urgency v2)%nat.
Proof.
  intros l1 l2 age H.
  exists (decide_level (intersects l1 critical) (intersects l1 als)
            (extreme_age age) (truthy l1)),
         (decide_level (intersects l2 critical) (intersects l2 als)
            (extreme_age age) (truthy l2)).
  rewrite !level_decided.
  pose proof (intersects_sub l1 l2 critical H) as Hc.
  pose proof (intersects_sub l1 l2 als H) as Ha.
  pose proof (truthy_sub l1 l2 H) as Ht.
  repeat split.
  destruct (intersects l1 critical), (intersects l2 critical),
    (intersects l1 als), (intersects l2 als), (truthy l1), (truthy l2),
    (extreme_age age); simpl; try lia;
    try (discriminate Hc; reflexivity);
    try (discriminate Ha; reflexivity);
    try (discriminate Ht; reflexivity).
Qed.

Lemma level_monotone_in_flags_witness :
  exists v1 v2 : SeverityLevel,
    _level_from_flags (flag_values ["fever"]) (opt_int (Some 30)) =
      Return (level_name v1)
    /\ _level_from_flags (flag_values ["pain"; "fever"; "stroke_signs"])
         (opt_int (Some 30)) = Return (level_name v2)
    /\ (urgency v1 <= urgency v2)%nat.
Proof.
  apply (level_monotone_in_flags ["fever"] ["pain"; "fever"; "stroke_signs"]).
  reflexivity.
Defined.

Lemma intersects_nil (cat : list string) : intersects [] cat = false.
Proof. induction cat as [|c cat IH]; simpl; [reflexivity | exact IH]. Qed.

(** X9: General is the level of the empty flag list and of no other: any flag,
    known or not, gives at least BLS, and no age makes up for a flag. *)
Theorem level_general_iff_no_flag :
  forall (flags : list string) (age : option Z),
    _level_from_flags (flag_values flags) (opt_int age) = Return "General"
    <-> flags = [].
Proof.
  intros flags age. rewrite level_typed. split.
  - destruct flags as [|x flags]; [reflexivity|]. simpl truthy.
    destruct (intersects _ critical); [discriminate|].
    destruct (intersects _ als); [discriminate|].
    destruct (_ && true)%bool; discriminate.
  - intros ->. rewrite !intersects_nil. simpl. now rewrite Bool.andb_false_r.
Qed.

(** X10: The age band: an age from 12 to 75 counts like an unknown age; an age
    below 12 or above 75 lifts any non-empty flag list to ALS at least. *)
Theorem level_age_band :
  (forall (flags : list string) (a : Z),
      12 <= a <= 75 ->
      _level_from_flags (flag_values flags) (opt_int (Some a)) =
      _level_from_flags (flag_values flags) (opt_int None))
  /\ (forall (flags : list string) (a : Z),
      a < 12 \/ 75 < a ->
      flags <> [] ->
      exists v : SeverityLevel,
        _level_from_flags (flag_values flags) (opt_int (Some a)) =
          Return (level_name v)
        /\ (urgency ALS <= urgency v)%nat).
Proof.
  split.
  - intros flags a Ha. rewrite !level_typed.
    replace (a <? 12) with false by (symmetry; apply Z.ltb_ge; lia).
    replace (75 <? a) with false by (symmetry; apply Z.ltb_ge; lia).
    reflexivity.
  - intros flags a Ha Hf. rewrite level_typed.
    assert (Ht : truthy flags = true) by (destruct flags; [now elim Hf | reflexivity]).
    assert (He : ((a <? 12) || (75 <? a))%bool = true).
    { apply Bool.orb_true_iff. destruct Ha; [left | right]; now apply Z.ltb_lt. }
    rewrite He, Ht. cbn [andb].
    destruct (intersects flags critical);
      [exists Critical; split; [reflexivity | simpl; lia]|].
    destruct (intersects flags als); exists ALS; (split; [reflexivity | simpl; lia]).
Qed.

Lemma level_age_band_witness :
  _level_from_flags (flag_values ["fever"]) (opt_int (Some 12)) =
    _level_from_flags (flag_values ["fever"]) (opt_int None)
  /\ exists v : SeverityLevel,
       _level_from_flags (flag_values ["fever"]) (opt_int (Some 76)) =
         Return (level_name v)
       /\ (urgency ALS <= urgency v)%nat.
Proof.
  split.
  - apply (proj1 level_age_band ["fever"] 12). lia.
  - apply (proj2 level_age_band ["fever"] 76); [lia | discriminate].
Defined.

(** ** The classifier on untyped input *)

Lemma py_list_raises (v : pyval) (e : exn) : py_list v = Raise e -> e = TypeError.
Proof. destruct v; simpl; congruence. Qed.

Lemma py_lt_raises (v : pyval) (n : Z) (e : exn) :
  py_lt v n = Raise e -> e = TypeError.
Proof. destruct v; simpl; congruence. Qed.

Lemma py_gt_raises (v : pyval) (n : Z) (e : exn) :
  py_gt v n = Raise e -> e = TypeError.
Proof. destruct v; simpl; congruence. Qed.

Lemma escalates_raises (age : pyval) (f : list pyval) (e : exn) :
  escalates age f = Raise e -> e = TypeError.
Proof.
  unfold escalates. destruct (is_none age); [discriminate|].
  destruct (py_lt age 12) as [young|e1] eqn:E1; cbn [bind].
  - destruct young; cbn [bind]; [discriminate|].
    destruct (py_gt age 75) as [old|e2] eqn:E2; cbn [bind]; [discriminate|].
    intros H. inversion H; subst. now apply py_gt_raises in E2.
  - intros H. inversion H; subst. now apply py_lt_raises in E1.
Qed.

Lemma level_raises (flags : list pyval) (age : pyval) (e : exn) :
  _level_from_flags flags age = Raise e -> e = TypeError.
Proof.
  unfold _level_from_flags, py_set. rewrite or_self_flags.
  destruct (forallb hashable flags); cbn [bind]; [|congruence].
  destruct (truthy (set_and flags critical)); [discriminate|].
  destruct (truthy (set_and flags als)); [discriminate|].
  destruct (escalates age flags) as [esc|e1] eqn:E; cbn [bind].
  - destruct esc; discriminate.
  - intros H. inversion H; subst. now apply escalates_raises in E.
Qed.

(** X11: Whatever the flags and the age are, a level that is returned is one of
    the four names. *)
Theorem level_is_one_of_four :
  forall (flags : list pyval) (age : pyval) (level : string),
    _level_from_flags flags age = Return level -> In level level_names.
Proof.
  intros flags age level. unfold _level_from_flags, py_set, level_names.
  rewrite or_self_flags.
  destruct (forallb hashable flags); cbn [bind]; [|discriminate].
  destruct (truthy (set_and flags critical));
    [intros H; inversion H; simpl; auto|].
  destruct (truthy (set_and flags als)); [intros H; inversion H; simpl; auto|].
  destruct (escalates age flags) as [esc|e]; cbn [bind]; [|discriminate].
  destruct esc; [intros H; inversion H; simpl; auto|].
  destruct (truthy flags); intros H; inversion H; simpl; auto.
Qed.

Lemma level_is_one_of_four_witness :
  In "BLS" level_names.
Proof.
  apply (level_is_one_of_four [PInt 1; PStr "fever"] (PFloat 40%float) "BLS").
  reflexivity.
Defined.

(** X12: A dictionary argument can only fail with a TypeError: the
    invalid-parameters error is kept for arguments that are no dictionary. *)
Theorem redflags_dict_fails_only_with_TypeError :
  forall (d : dict) (e : exn),
    _redflags_core (PDict d) = Raise e -> e = TypeError.
Proof.
  intros d e. unfold _redflags_core.
  destruct (py_list (dict_get_default d "flags" (PList []))) as [flags|e1] eqn:E1;
    cbn [bind].
  - destruct (_level_from_flags flags (dict_get d "age_years")) as [level|e2] eqn:E2;
      cbn [bind]; [discriminate|].
    intros H. inversion H; subst. now apply level_raises in E2.
  - intros H. inversion H; subst. now apply py_list_raises in E1.
Qed.

Lemma redflags_dict_fails_only_with_TypeError_witness :
  _redflags_core (PDict [("flags", PInt 5)]) = Raise TypeError
  /\ TypeError = TypeError.
Proof.
  split; [reflexivity|].
  apply (redflags_dict_fails_only_with_TypeError [("flags", PInt 5)] TypeError).
  reflexivity.
Defined.

(** X13: What the classifier returns has the three keys level_of_care, flags and
    age_years, and classifying it again returns it unchanged. *)
Theorem redflags_result_is_a_fixed_point :
  forall (structured : pyval) (d : dict),
    _redflags_core structured = Return d ->
    (exists (level : string) (flags : list pyval),
        d = [ ("level_of_care", PStr level);
              ("flags", PList flags);
              ("age_years", dict_get d "age_years") ])
    /\ _redflags_core (PDict d) = Return d.
Proof.
  intros structured d. destruct structured as [| | | | |l|d0]; try discriminate.
  unfold _redflags_core at 1.
  destruct (py_list (dict_get_default d0 "flags" (PList []))) as [flags|e1];
    cbn [bind]; [|discriminate].
  destruct (_level_from_flags flags (dict_get d0 "age_years")) as [level|e2] eqn:E;
    cbn [bind]; [|discriminate].
  intros H. inversion H; subst. clear H. split.
  - exists level, flags. reflexivity.
  - unfold _redflags_core.
    change (dict_get_default _ "flags" (PList [])) with (PList flags).
    change (dict_get _ "age_years") with (dict_get d0 "age_years").
    cbn [py_list bind]. rewrite E. reflexivity.
Qed.

Lemma redflags_result_is_a_fixed_point_witness :
  (exists (level : string) (flags : list pyval),
      [ ("level_of_care", PStr "ALS"); ("flags", PList [PStr "seizure"]);
        ("age_years", PNone) ] =
      [ ("level_of_care", PStr level);
        ("flags", PList flags);
        ("age_years",
         dict_get [ ("level_of_care", PStr "ALS"); ("flags", PList [PStr "seizure"]);
                    ("age_years", PNone) ] "age_years") ])
  /\ _redflags_core
       (PDict [ ("level_of_care", PStr "ALS"); ("flags", PList [PStr "seizure"]);
                ("age_years", PNone) ]) =
     Return [ ("level_of_care", PStr "ALS"); ("flags", PList [PStr "seizure"]);
              ("age_years", PNone) ].
Proof.
  apply (redflags_result_is_a_fixed_point (PDict [("flags", PList [PStr "seizure"])])).
  reflexivity.
Defined.

Lemma eq_str_char (c : ascii) (x : string) :
  (2 <= String.length x)%nat -> eq_str (PStr (String c EmptyString)) x = false.
Proof.
  intros H. destruct x as [|a [|b x]]; simpl in H; try lia.
  simpl. destruct (Ascii.eqb c a); reflexivity.
Qed.

Lemma set_and_chars (s : string) (cat : list string) :
  forallb (fun x => Nat.leb 2 (String.length x)) cat = true ->
  set_and (chars_of s) cat = [].
Proof.
  intros Hcat. unfold set_and, chars_of.
  induction (list_ascii_of_string s) as [|c l IH]; simpl; [reflexivity|].
  replace (existsb (eq_str (PStr (String c EmptyString))) cat) with false; [exact IH|].
  symmetry. clear IH. induction cat as [|x cat IHc]; cbn [existsb]; [reflexivity|].
  cbn [forallb] in Hcat. apply andb_prop in Hcat. destruct Hcat as [Hx Hcat].
  rewrite eq_str_char by (now apply Nat.leb_le). now apply IHc.
Qed.

Lemma hashable_chars (s : string) : forallb hashable (chars_of s) = true.
Proof.
  unfold chars_of. induction (list_ascii_of_string s); simpl; auto.
Qed.

(** X14: A flags value that is one string and not a list of strings is taken
    character by character: no category is ever recognised in it, and
    without an age the level is BLS even for the string "bleeding". *)
Theorem redflags_string_flags_are_split :
  forall (d : dict) (s : string),
    dict_lookup d "flags" = Some (PStr s) ->
    s <> EmptyString ->
    dict_get d "age_years" = PNone ->
    _redflags_core (PDict d) =
    Return [ ("level_of_care", PStr "BLS");
             ("flags", PList (chars_of s));
             ("age_years", PNone) ].
Proof.
  intros d s Hs Hne Hage. unfold _redflags_core, dict_get_default.
  rewrite Hs. cbn [py_list bind]. fold (chars_of s).
  unfold dict_get, dict_get_default in Hage.
  unfold dict_get, dict_get_default. 
  destruct (dict_lookup d "age_years") as [v|]; subst;
    unfold _level_from_flags, py_set;
    rewrite or_self_flags, hashable_chars; cbn [bind];
    rewrite !set_and_chars by reflexivity; cbn [truthy];
    unfold escalates; cbn [is_none bind];
    (destruct s as [|c s]; [now elim Hne | reflexivity]).
Qed.

Lemma redflags_string_flags_are_split_witness :
  _redflags_core (PDict [("flags", PStr "bleeding")]) =
  Return [ ("level_of_care", PStr "BLS");
           ("flags", PList (chars_of "bleeding"));
           ("age_years", PNone) ].
Proof.
  apply (redflags_string_flags_are_split [("flags", PStr "bleeding")] "bleeding").
  - reflexivity.
  - discriminate.
  - reflexivity.
Defined.

(** ** The extractor *)

(** X1: The extractor fails on the texts made of white space only, the empty
    text among them, with the invalid-parameters error, and on no other
    text; an age hint does not change that. *)
Theorem extract_fails_iff_blank :
  forall (text : string) (age_years : option Z) (e : exn),
    symptom_extract_tool text age_years = Raise e
    <-> all_space text = true /\ e = McpError INVALID_PARAMS "text is required".
Proof.
  intros text age_years e. unfold symptom_extract_tool. rewrite strip_truthy.
  destruct (all_space text); simpl; split.
  - intros H. inversion H. auto.
  - intros [_ ->]. reflexivity.
  - discriminate.
  - intros [H _]. discriminate H.
Qed.

Lemma In_category_names (c : string) (phrases : list string) :
  In (c, phrases) _EMS_SYMPTOMS -> In c category_names.
Proof. intros H. unfold category_names. now apply (in_map fst) in H. Qed.

Lemma flags_from_text_NoDup (text : string) : NoDup (_flags_from_text text).
Proof.
  unfold _flags_from_text. apply sorted_NoDup, scan_NoDup. constructor.
Qed.

(** X5: The flags are names of categories of the table, so there are at most
    eight of them, however long the text is. *)
Theorem flags_are_category_names :
  forall text : string,
    (forall c : string, In c (_flags_from_text text) -> In c category_names)
    /\ (List.length (_flags_from_text text) <= 8)%nat.
Proof.
  intros text.
  assert (H : forall c, In c (_flags_from_text text) -> In c category_names).
  { intros c Hc. apply flags_from_text_In in Hc.
    destruct Hc as [phrases [p [Hin _]]]. now apply In_category_names in Hin. }
  split; [exact H|].
  change 8%nat with (List.length category_names).
  apply NoDup_incl_length; [apply flags_from_text_NoDup | exact H].
Qed.

Lemma append_assoc (a b c : string) : (a ++ b) ++ c = a ++ b ++ c.
Proof. induction a as [|x a IH]; simpl; [reflexivity | now rewrite IH]. Qed.

Lemma prefix_split (p s : string) : prefix p s = true -> exists y, s = p ++ y.
Proof.
  revert s. induction p as [|c p IH]; intros s H.
  - exists s. reflexivity.
  - destruct s as [|d s]; simpl in H; [discriminate|].
    destruct (ascii_dec c d) as [->|]; [|discriminate].
    destruct (IH s H) as [y ->]. exists y. reflexivity.
Qed.

Lemma contains_cons (p : string) (c : ascii) (s : string) :
  contains p (String c s) = (prefix p (String c s) || contains p s)%bool.
Proof. reflexivity. Qed.

Lemma contains_split (p s : string) :
  contains p s = true -> exists x y, s = x ++ p ++ y.
Proof.
  induction s as [|c s IH]; intros H.
  - exists EmptyString, EmptyString. destruct p; [reflexivity | discriminate].
  - rewrite contains_cons in H. apply Bool.orb_true_iff in H. destruct H as [H|H].
    + destruct (prefix_split _ _ H) as [y Hy]. exists EmptyString, y. exact Hy.
    + destruct (IH H) as [x [y ->]]. exists (String c x), y. reflexivity.
Qed.

Lemma contains_context (p a t b : string) :
  contains p t = true -> contains p (a ++ t ++ b) = true.
Proof.
  intros H. destruct (contains_split _ _ H) as [x [y ->]].
  rewrite !append_assoc, <- (append_assoc a x). apply contains_app.
Qed.

(** X6: Text put before or after a text takes no flag away: every flag of a
    text is a flag of any text that contains it. *)
Theorem flags_survive_context :
  forall (a t b c : string),
    In c (_flags_from_text t) -> In c (_flags_from_text (a ++ t ++ b)).
Proof.
  intros a t b c H. apply flags_from_text_In in H. apply flags_from_text_In.
  destruct H as [phrases [p [Hin [Hp Hc]]]]. exists phrases, p.
  repeat split; try assumption.
  rewrite !lower_app. now apply contains_context.
Qed.

Lemma flags_survive_context_witness :
  In "seizure" (_flags_from_text ("My son, " ++ "he had a SEIZURE" ++ " an hour ago")).
Proof.
  apply (flags_survive_context "My son, " "he had a SEIZURE" " an hour ago" "seizure").
  vm_compute. auto.
Defined.

Lemma no_phrase_no_flags (text : string) :
  no_phrase text = true -> _flags_from_text text = [].
Proof.
  intros H. destruct (_flags_from_text text) as [|c l] eqn:E; [reflexivity|].
  assert (Hc : In c (_flags_from_text text)) by (rewrite E; now left).
  apply flags_from_text_In in Hc. destruct Hc as [phrases [p [Hin [Hp Hc]]]].
  unfold no_phrase in H. rewrite forallb_forall in H.
  specialize (H _ Hin). simpl in H.
  assert (Ha : any_phrase phrases (lower text) = true).
  { apply any_phrase_In. now exists p. }
  rewrite Ha in H. discriminate.
Qed.

(** X15: Extraction followed by classification fails on blank texts only; on
    any other text it returns one of the four levels together with the
    flags and the age the extractor settled on, whatever that age is. *)
Theorem pipeline_fails_iff_blank :
  forall (text : string) (age_years : option Z),
    (all_space text = true ->
     pipeline text age_years = Raise (McpError INVALID_PARAMS "text is required"))
    /\ (all_space text = false ->
        exists level : string,
          In level level_names
          /\ pipeline text age_years =
             Return [ ("level_of_care", PStr level);
                      ("flags", PList (flag_values (_flags_from_text text)));
                      ("age_years", opt_int (resolved_age text age_years)) ]).
Proof.
  intros text age_years. split; intros H.
  - unfold pipeline, symptom_extract_tool. now rewrite strip_truthy, H.
  - unfold pipeline, redflags_validate. rewrite (extract_returns _ _ H).
    cbn [bind]. fold (resolved_age text age_years).
    rewrite redflags_of_signals, level_decided. cbn [bind].
    eexists. split; [|reflexivity].
    destruct (decide_level _ _ _ _); simpl; auto.
Qed.

Lemma pipeline_fails_iff_blank_witness :
  pipeline "  " (Some 30) = Raise (McpError INVALID_PARAMS "text is required")
  /\ exists level : string,
       In level level_names
       /\ pipeline "age 150 years, fever" None =
          Return [ ("level_of_care", PStr level);
                   ("flags", PList (flag_values (_flags_from_text "age 150 years, fever")));
                   ("age_years", opt_int (resolved_age "age 150 years, fever" None)) ].
Proof.
  split.
  - apply (proj1 (pipeline_fails_iff_blank "  " (Some 30))). reflexivity.
  - apply (proj2 (pipeline_fails_iff_blank "age 150 years, fever" None)). reflexivity.
Defined.

(** X16: A text in which no phrase of the table occurs is classified General
    with no flag, whatever age it mentions and whatever age is given. *)
Theorem pipeline_without_phrase_is_general :
  forall (text : string) (age_years : option Z),
    all_space text = false ->
    no_phrase text = true ->
    pipeline text age_years =
    Return [ ("level_of_care", PStr "General");
             ("flags", PList []);
             ("age_years", opt_int (resolved_age text age_years)) ].
Proof.
  intros text age_years Hb Hn.
  unfold pipeline, redflags_validate. rewrite (extract_returns _ _ Hb).
  cbn [bind]. fold (resolved_age text age_years).
  rewrite redflags_of_signals, (no_phrase_no_flags _ Hn).
  change (flag_values []) with (@nil pyval).
  rewrite level_no_flags; [reflexivity|].
  destruct (resolved_age text age_years); reflexivity.
Qed.

Lemma pipeline_without_phrase_is_general_witness :
  pipeline "my grandmother is 91 years old" None =
  Return [ ("level_of_care", PStr "General");
           ("flags", PList []);
           ("age_years", opt_int (resolved_age "my grandmother is 91 years old" None)) ].
Proof.
  apply (pipeline_without_phrase_is_general "my grandmother is 91 years old" None);
    reflexivity.
Defined.

(** ** The age pattern *)

Lemma repeat_greedy_inv {A : Type} (p : ascii -> bool) (lo : nat) (hi : option nat)
    (g : option string) (k : mstate -> option A) (x : A) :
  forall (s : string) (n : nat) (pv : option ascii) (ps : nat),
    repeat_greedy p lo hi n pv s ps g k = Some x ->
    exists (u v : string) (pv' : option ascii),
      s = u ++ v
      /\ all_chars p u = true
      /\ k (MState pv' v (ps + String.length u) g) = Some x
      /\ (lo <= n + String.length u)%nat
      /\ (forall h, hi = Some h -> (n <= h)%nat -> (n + String.length u <= h)%nat).
Proof.
  assert (Hstop : forall s n pv ps,
             (if Nat.leb lo n then k (MState pv s ps g) else None) = Some x ->
             exists (u v : string) (pv' : option ascii),
               s = u ++ v
               /\ all_chars p u = true
               /\ k (MState pv' v (ps + String.length u) g) = Some x
               /\ (lo <= n + String.length u)%nat
               /\ (forall h, hi = Some h -> (n <= h)%nat ->
                             (n + String.length u <= h)%nat)).
  { intros s n pv ps H. destruct (Nat.leb lo n) eqn:E; [|discriminate].
    apply Nat.leb_le in E. exists EmptyString, s, pv. simpl.
    rewrite !Nat.add_0_r. repeat split; auto. }
  induction s as [|c s IH]; intros n pv ps H.
  - apply (Hstop _ _ _ _ H).
  - cbn [repeat_greedy] in H. destruct (p c && under hi n)%bool eqn:E.
    + destruct (repeat_greedy p lo hi (S n) (Some c) s (S ps) g k) as [y|] eqn:R.
      * inversion H; subst y. clear H.
        apply andb_prop in E. destruct E as [Hc Hu].
        destruct (IH _ _ _ R) as [u [v [pv' [-> [Hall [Hk [Hlo Hhi]]]]]]].
        exists (String c u), v, pv'. simpl. rewrite Hc, Hall.
        replace (ps + S (String.length u))%nat with (S ps + String.length u)%nat by lia.
        repeat split; auto; try lia.
        intros h Hh Hn. subst hi. simpl in Hu. apply Nat.ltb_lt in Hu.
        specialize (Hhi h eq_refl). lia.
      * apply (Hstop _ _ _ _ H).
    + apply (Hstop _ _ _ _ H).
Qed.

Lemma rmatch_groupless (r : regex) :
  groupless r = true ->
  forall (A : Type) (st : mstate) (k : mstate -> option A) (x : A),
    rmatch r st k = Some x ->
    exists st' : mstate, k st' = Some x /\ group1 st' = group1 st.
Proof.
  induction r as [|c|p lo hi|r IH|r1 IH1 r2 IH2|r1 IH1 r2 IH2|r IH];
    intros Hg A st k x H; cbn [rmatch] in H; cbn [groupless] in Hg.
  - destruct (xorb _ _); [|discriminate]. now exists st.
  - destruct (rest st) as [|y s]; [discriminate|].
    destruct (Ascii.eqb _ _); [|discriminate]. eexists. split; [exact H | reflexivity].
  - apply repeat_greedy_inv in H. destruct H as [u [v [pv' [_ [_ [Hk _]]]]]].
    eexists. split; [exact Hk | reflexivity].
  - destruct (rmatch r st k) as [y|] eqn:E.
    + inversion H; subst y. now apply (IH Hg A st k x).
    + now exists st.
  - apply andb_prop in Hg. destruct Hg as [Hg1 Hg2].
    apply (IH1 Hg1) in H. destruct H as [st1 [H1 G1]].
    apply (IH2 Hg2) in H1. destruct H1 as [st2 [H2 G2]].
    exists st2. split; [exact H2 | congruence].
  - apply andb_prop in Hg. destruct Hg as [Hg1 Hg2].
    destruct (rmatch r1 st k) as [y|] eqn:E.
    + inversion H; subst y. now apply (IH1 Hg1 A st k x).
    + now apply (IH2 Hg2 A st k x).
  - discriminate.
Qed.

Lemma substring_prefix (u v : string) : substring 0 (String.length u) (u ++ v) = u.
Proof.
  induction u as [|c u IH]; simpl; [now destruct v | now rewrite IH].
Qed.

(** A match of [_AGE_RX] starts with one to three digits, which are its
    group 1. *)
Lemma age_match_group (st m : mstate) :
  rmatch _AGE_RX st Some = Some m ->
  exists u v : string,
    rest st = u ++ v
    /\ group1 m = Some u
    /\ all_chars isdecimal u = true
    /\ (1 <= String.length u <= 3)%nat.
Proof.
  change _AGE_RX
    with (Seq Boundary (Seq (Group (Repeat isdecimal 1 (Some 3%nat))) age_unit)).
  cbn [rmatch]. destruct (xorb _ _); [|discriminate]. intros H.
  apply repeat_greedy_inv in H.
  destruct H as [u [v [pv' [Hs [Hall [Hk [Hlo Hhi]]]]]]].
  cbn [pos prev rest] in Hk.
  apply (rmatch_groupless age_unit eq_refl) in Hk.
  destruct Hk as [st' [Hm Hg]]. inversion Hm; subst st'. clear Hm.
  cbn [group1] in Hg.
  replace (pos st + String.length u - pos st)%nat with (String.length u) in Hg by lia.
  rewrite Hs, substring_prefix in Hg.
  specialize (Hhi 3%nat eq_refl).
  exists u, v. repeat split; auto; lia.
Qed.

Lemma search_from_inv (r : regex) (m : mstate) :
  forall (s : string) (pv : option ascii) (ps : nat),
    search_from r pv s ps = Some m ->
    exists (pre s' : string) (pv' : option ascii) (ps' : nat),
      s = pre ++ s' /\ rmatch r (MState pv' s' ps' None) Some = Some m.
Proof.
  induction s as [|c s IH]; intros pv ps H; cbn [search_from] in H.
  - destruct (rmatch r (MState pv EmptyString ps None) Some) as [y|] eqn:E;
      [|discriminate].
    inversion H; subst y. now exists EmptyString, EmptyString, pv, ps.
  - destruct (rmatch r (MState pv (String c s) ps None) Some) as [y|] eqn:E.
    + inversion H; subst y. now exists EmptyString, (String c s), pv, ps.
    + destruct (IH _ _ H) as [pre [s' [pv' [ps' [-> Hm]]]]].
      now exists (String c pre), s', pv', ps'.
Qed.

Lemma isdecimal_value (c : ascii) :
  isdecimal c = true -> 0 <= Z.of_nat (code c - 48) <= 9.
Proof.
  unfold isdecimal, between. intros H. apply andb_prop in H.
  destruct H as [H1 H2]. apply Nat.leb_le in H1, H2. lia.
Qed.

Lemma int_acc_bounds (u : string) :
  forall acc a : Z,
    0 <= acc ->
    int_acc acc u = Some a ->
    acc * 10 ^ Z.of_nat (String.length u) <= a
    < (acc + 1) * 10 ^ Z.of_nat (String.length u).
Proof.
  induction u as [|c u IH]; intros acc a Hacc H.
  - simpl in H. inversion H; subst. simpl. lia.
  - cbn [int_acc] in H. destruct (isdecimal c) eqn:Hc; [|discriminate].
    pose proof (isdecimal_value c Hc) as Hd.
    apply IH in H; [|lia].
    cbn [String.length]. rewrite Nat2Z.inj_succ, Z.pow_succ_r by lia.
    assert (Hp : 0 < 10 ^ Z.of_nat (String.length u)) by (apply Z.pow_pos_nonneg; lia).
    nia.
Qed.

(** X2: An age read from the text is a number from 0 to 999: the pattern
    takes at most three digits and there is no sign. *)
Theorem extract_age_bounds :
  forall (text : string) (a : Z),
    _extract_age text = Some a -> 0 <= a <= 999.
Proof.
  intros text a. rewrite extract_age_unfiltered. unfold search.
  destruct (search_from _AGE_RX None text 0) as [m|] eqn:E; [|discriminate].
  apply search_from_inv in E. destruct E as [pre [s' [pv' [ps' [_ Hm]]]]].
  apply age_match_group in Hm. destruct Hm as [u [v [_ [Hg [_ Hlen]]]]].
  unfold group_1, int. rewrite Hg. destruct u as [|c u]; [discriminate|].
  intros H. apply int_acc_bounds in H; [|lia].
  assert (Hp : 10 ^ Z.of_nat (String.length (String c u)) <= 10 ^ 3).
  { apply Z.pow_le_mono_r; lia. }
  assert (Hq : 0 < 10 ^ Z.of_nat (String.length (String c u))).
  { apply Z.pow_pos_nonneg; lia. }
  lia.
Qed.

Lemma extract_age_bounds_witness : 0 <= 150 <= 999.
Proof.
  apply (extract_age_bounds "age 150 years" 150). vm_compute. reflexivity.
Defined.

Lemma any_char_app (p : ascii -> bool) (a b : string) :
  any_char p (a ++ b) = (any_char p a || any_char p b)%bool.
Proof.
  induction a as [|c a IH]; simpl; [reflexivity|].
  now rewrite IH, Bool.orb_assoc.
Qed.

(** X3: A text without a decimal digit holds no age. *)
Theorem extract_age_needs_digit :
  forall text : string,
    any_char isdecimal text = false -> _extract_age text = None.
Proof.
  intros text Hd. rewrite extract_age_unfiltered. unfold search.
  destruct (search_from _AGE_RX None text 0) as [m|] eqn:E; [|reflexivity].
  apply search_from_inv in E. destruct E as [pre [s' [pv' [ps' [-> Hm]]]]].
  apply age_match_group in Hm. cbn [rest] in Hm.
  destruct Hm as [u [v [-> [_ [Hall Hlen]]]]].
  rewrite !any_char_app in Hd.
  destruct u as [|c u]; [simpl in Hlen; lia|].
  simpl in Hall, Hd. apply andb_prop in Hall. destruct Hall as [Hc _].
  rewrite Hc in Hd. simpl in Hd. rewrite Bool.orb_true_r in Hd. discriminate.
Qed.

Lemma extract_age_needs_digit_witness :
  _extract_age "she is eighty years old" = None.
Proof.
  apply (extract_age_needs_digit "she is eighty years old"). reflexivity.
Defined.

(** ** Letter case *)

Lemma lower_char_idempotent (c : ascii) : lower_char (lower_char c) = lower_char c.
Proof. destruct c as [[] [] [] [] [] [] [] []]; vm_compute; reflexivity. Qed.

Lemma isword_lower_char (c : ascii) : isword (lower_char c) = isword c.
Proof. destruct c as [[] [] [] [] [] [] [] []]; vm_compute; reflexivity. Qed.

Lemma isdecimal_lower_char (c : ascii) : isdecimal (lower_char c) = isdecimal c.
Proof. destruct c as [[] [] [] [] [] [] [] []]; vm_compute; reflexivity. Qed.

Lemma isspace_lower_char (c : ascii) : isspace (lower_char c) = isspace c.
Proof. destruct c as [[] [] [] [] [] [] [] []]; vm_compute; reflexivity. Qed.

Lemma lower_char_digit (c : ascii) : isdecimal c = true -> lower_char c = c.
Proof. destruct c as [[] [] [] [] [] [] [] []]; vm_compute; congruence. Qed.

Lemma lower_idempotent (s : string) : lower (lower s) = lower s.
Proof.
  induction s as [|c s IH]; simpl; [reflexivity|].
  now rewrite lower_char_idempotent, IH.
Qed.

Lemma substring_lower (n m : nat) (s : string) :
  substring n m (lower s) = lower (substring n m s).
Proof.
  revert n m. induction s as [|c s IH]; intros n m.
  - destruct n, m; reflexivity.
  - destruct n as [|n]; [destruct m as [|m]|]; simpl; try reflexivity.
    + now rewrite IH.
    + apply IH.
Qed.

Lemma word_before_lower (st : mstate) :
  word_before (lower_state st) = word_before st.
Proof.
  unfold word_before, lower_state. simpl.
  destruct (prev st); simpl; [apply isword_lower_char | reflexivity].
Qed.

Lemma word_after_lower (st : mstate) :
  word_after (lower_state st) = word_after st.
Proof.
  unfold word_after, lower_state. simpl.
  destruct (rest st); simpl; [reflexivity | apply isword_lower_char].
Qed.

Lemma repeat_greedy_lower {A B : Type} (f : A -> B) (p : ascii -> bool)
    (lo : nat) (hi : option nat) (g : option string)
    (k : mstate -> option A) (k' : mstate -> option B) :
  (forall c : ascii, p (lower_char c) = p c) ->
  (forall st : mstate, k' (lower_state st) = option_map f (k st)) ->
  forall (s : string) (n : nat) (pv : option ascii) (ps : nat),
    repeat_greedy p lo hi n (option_map lower_char pv) (lower s) ps
      (option_map lower g) k' =
    option_map f (repeat_greedy p lo hi n pv s ps g k).
Proof.
  intros Hp Hk.
  assert (Hstop : forall s n pv ps,
             (if Nat.leb lo n
              then k' (MState (option_map lower_char pv) (lower s) ps
                              (option_map lower g))
              else None) =
             option_map f (if Nat.leb lo n then k (MState pv s ps g) else None)).
  { intros s n pv ps. destruct (Nat.leb lo n); [|reflexivity].
    apply (Hk (MState pv s ps g)). }
  induction s as [|c s IH]; intros n pv ps.
  - apply (Hstop EmptyString).
  - cbn [lower repeat_greedy]. rewrite Hp.
    destruct (p c && under hi n)%bool.
    + specialize (IH (S n) (Some c) (S ps)). cbn [option_map] in IH.
      rewrite IH.
      destruct (repeat_greedy p lo hi (S n) (Some c) s (S ps) g k); [reflexivity|].
      apply (Hstop (String c s)).
    + apply (Hstop (String c s)).
Qed.

(** Matching the lower-cased text goes step by step like matching the
    text. *)
Lemma rmatch_lower (r : regex) :
  case_blind r ->
  forall (A B : Type) (f : A -> B) (st : mstate)
         (k : mstate -> option A) (k' : mstate -> option B),
    (forall st1 : mstate, k' (lower_state st1) = option_map f (k st1)) ->
    rmatch r (lower_state st) k' = option_map f (rmatch r st k).
Proof.
  induction r as [|c|p lo hi|r IH|r1 IH1 r2 IH2|r1 IH1 r2 IH2|r IH];
    intros Hb A B f st k k' Hk; cbn [rmatch]; cbn [case_blind] in Hb.
  - rewrite word_before_lower, word_after_lower.
    destruct (xorb _ _); [apply Hk | reflexivity].
  - unfold lower_state at 1. cbn [rest].
    destruct (rest st) as [|x s] eqn:E; cbn [lower]; [reflexivity|].
    rewrite lower_char_idempotent.
    destruct (Ascii.eqb (lower_char x) c); [|reflexivity].
    apply (Hk (MState (Some x) s (S (pos st)) (group1 st))).
  - unfold lower_state at 1. cbn [prev rest pos group1].
    now apply repeat_greedy_lower.
  - rewrite (IH Hb A B f st k k' Hk).
    destruct (rmatch r st k); [reflexivity | apply Hk].
  - destruct Hb as [Hb1 Hb2].
    apply (IH1 Hb1 A B f st). intros st1. now apply (IH2 Hb2).
  - destruct Hb as [Hb1 Hb2].
    rewrite (IH1 Hb1 A B f st k k' Hk).
    destruct (rmatch r1 st k); [reflexivity | now apply (IH2 Hb2)].
  - apply (IH Hb A B f st). intros st1.
    unfold lower_state. cbn [prev rest pos group1].
    rewrite substring_lower.
    apply (Hk (MState (prev st1) (rest st1) (pos st1)
                      (Some (substring 0 (pos st1 - pos st) (rest st))))).
Qed.

Lemma search_from_lower (r : regex) :
  case_blind r ->
  forall (s : string) (pv : option ascii) (ps : nat),
    search_from r (option_map lower_char pv) (lower s) ps =
    option_map lower_state (search_from r pv s ps).
Proof.
  intros Hb.
  assert (H : forall pv s ps,
             rmatch r (MState (option_map lower_char pv) (lower s) ps None) Some =
             option_map lower_state (rmatch r (MState pv s ps None) Some)).
  { intros pv s ps.
    apply (rmatch_lower r Hb mstate mstate lower_state (MState pv s ps None) Some Some).
    reflexivity. }
  induction s as [|c s IH]; intros pv ps.
  - pose proof (H pv EmptyString ps) as H0. cbn [lower] in H0.
    cbn [lower search_from]. rewrite H0.
    destruct (rmatch r (MState pv EmptyString ps None) Some); reflexivity.
  - pose proof (H pv (String c s) ps) as H0. cbn [lower] in H0.
    cbn [lower search_from]. rewrite H0.
    destruct (rmatch r (MState pv (String c s) ps None) Some); [reflexivity|].
    apply (IH (Some c)).
Qed.

Lemma age_rx_case_blind : case_blind _AGE_RX.
Proof.
  cbn. repeat split; auto using isdecimal_lower_char, isspace_lower_char.
Qed.

Lemma int_acc_lower (s : string) :
  forall acc : Z, int_acc acc (lower s) = int_acc acc s.
Proof.
  induction s as [|c s IH]; intros acc; cbn [lower int_acc]; [reflexivity|].
  rewrite isdecimal_lower_char. destruct (isdecimal c) eqn:E; [|reflexivity].
  rewrite (lower_char_digit c E). apply IH.
Qed.

Lemma int_lower (s : string) : int (lower s) = int s.
Proof. destruct s as [|c s]; [reflexivity|]. apply (int_acc_lower (String c s)). Qed.

Lemma all_space_lower_eq (s : string) : all_space (lower s) = all_space s.
Proof.
  induction s as [|c s IH]; simpl; [reflexivity|].
  now rewrite isspace_lower_char, IH.
Qed.

(** X4: for a text whose characters are code points 0 to 255, letter case
    plays no part in extraction: the text and its lower-case form give the
    same age and the same flags, and are blank together. ([string] holds
    exactly these texts; beyond them [str.lower] can change the number of
    characters and the property is not claimed.) *)
Theorem extract_ignores_letter_case :
  forall text : string,
    _extract_age (lower text) = _extract_age text
    /\ _flags_from_text (lower text) = _flags_from_text text
    /\ all_space (lower text) = all_space text.
Proof.
  intros text. split; [|split].
  - rewrite !extract_age_unfiltered. unfold search.
    pose proof (search_from_lower _AGE_RX age_rx_case_blind text None 0) as H.
    cbn [option_map] in H. rewrite H.
    destruct (search_from _AGE_RX None text 0) as [m|]; [|reflexivity].
    cbn [option_map]. unfold group_1, lower_state. cbn [group1].
    destruct (group1 m) as [g|]; [apply int_lower | reflexivity].
  - unfold _flags_from_text. now rewrite lower_idempotent.
  - apply all_space_lower_eq.
Qed.

(** ** Order of floats *)

Lemma SFcompare_lt_irrefl (a : SpecFloat.spec_float) :
  SpecFloat.SFcompare a a <> Some Lt.
Proof.
  destruct a as [s|s| |s m e]; simpl; try discriminate.
  - destruct s; discriminate.
  - change (Pos.compare_cont Eq m m) with (Pos.compare m m).
    destruct s; rewrite Z.compare_refl, Pos.compare_refl; discriminate.
Qed.

Lemma SFcompare_lt_trans (a b c : SpecFloat.spec_float) :
  SpecFloat.SFcompare a b = Some Lt ->
  SpecFloat.SFcompare b c = Some Lt ->
  SpecFloat.SFcompare a c = Some Lt.
Proof.
  destruct a as [sa|sa| |sa ma ea], b as [sb|sb| |sb mb eb],
           c as [sc|sc| |sc mc ec];
    simpl; try discriminate;
    try (destruct sa; discriminate); try (destruct sb; discriminate);
    try (destruct sc; discriminate);
    try (destruct sa, sb; discriminate); try (destruct sb, sc; discriminate);
    try (destruct sa, sb, sc; simpl; congruence).
  change (Pos.compare_cont Eq ma mb) with (Pos.compare ma mb).
  change (Pos.compare_cont Eq mb mc) with (Pos.compare mb mc).
  change (Pos.compare_cont Eq ma mc) with (Pos.compare ma mc).
  destruct sa, sb, sc; try discriminate; try reflexivity;
    destruct (Z.compare_spec ea eb), (Z.compare_spec eb ec),
             (Z.compare_spec ea ec);
    try lia; try discriminate; try reflexivity;
    destruct (Pos.compare_spec ma mb), (Pos.compare_spec mb mc),
             (Pos.compare_spec ma mc);
    simpl; try lia; try discriminate; try reflexivity.
Qed.

Lemma ltb_irrefl (x : float) : PrimFloat.ltb x x = false.
Proof.
  rewrite FloatAxioms.ltb_spec. unfold SpecFloat.SFltb.
  pose proof (SFcompare_lt_irrefl (FloatOps.Prim2SF x)) as H.
  destruct (SpecFloat.SFcompare _ _) as [[]|]; congruence.
Qed.

Lemma ltb_trans (x y z : float) :
  PrimFloat.ltb x y = true -> PrimFloat.ltb y z = true -> PrimFloat.ltb x z = true.
Proof.
  rewrite !FloatAxioms.ltb_spec. unfold SpecFloat.SFltb.
  pose proof (SFcompare_lt_trans (FloatOps.Prim2SF x) (FloatOps.Prim2SF y)
                (FloatOps.Prim2SF z)) as H.
  destruct (SpecFloat.SFcompare (FloatOps.Prim2SF x) (FloatOps.Prim2SF y)) as [[]|];
    try discriminate.
  destruct (SpecFloat.SFcompare (FloatOps.Prim2SF y) (FloatOps.Prim2SF z)) as [[]|];
    try discriminate.
  intros _ _. now rewrite H.
Qed.

Lemma ltb_asym (x y : float) :
  PrimFloat.ltb x y = true -> PrimFloat.ltb y x = false.
Proof.
  intros H. destruct (PrimFloat.ltb y x) eqn:E; [|reflexivity].
  pose proof (ltb_trans x y x H E) as C. rewrite ltb_irrefl in C. discriminate.
Qed.

(** ** The nearest facility *)

Section Nearest.

Context {libm : Libm}.

Variable key : Facility -> res float.

(** What the scan of [min] keeps: the facility it ends with has a key, the
    key is the one it started with or strictly below it, and no key met on
    the way is strictly below it. *)
Lemma min_loop_least (l : list Facility) :
  forall (best : Facility) (best_key : float) (h : Facility),
    key best = Return best_key ->
    min_loop key best best_key l = Return h ->
    exists kh : float,
      key h = Return kh
      /\ ((h = best /\ kh = best_key) \/ PrimFloat.ltb kh best_key = true)
      /\ (forall x kx, In x l -> key x = Return kx -> PrimFloat.ltb kx kh = false).
Proof.
  induction l as [|x l IH]; intros best bk h Hb H; cbn [min_loop] in H.
  - inversion H; subst. exists bk. repeat split; auto. intros x kx [].
  - destruct (key x) as [k|e] eqn:Ex; cbn [bind] in H; [|discriminate].
    destruct (PrimFloat.ltb k bk) eqn:E.
    + destruct (IH x k h Ex H) as [kh [Hk [Hrel Hall]]].
      exists kh. split; [exact Hk|]. split.
      * right. destruct Hrel as [[_ ->]|Hlt]; [exact E|].
        now apply (ltb_trans kh k bk).
      * intros y ky [<-|Hy] Hky; [|now apply (Hall y)].
        rewrite Ex in Hky. inversion Hky; subst ky.
        destruct Hrel as [[_ ->]|Hlt]; [apply ltb_irrefl | now apply ltb_asym].
    + destruct (IH best bk h Hb H) as [kh [Hk [Hrel Hall]]].
      exists kh. split; [exact Hk|]. split; [exact Hrel|].
      intros y ky [<-|Hy] Hky; [|now apply (Hall y)].
      rewrite Ex in Hky. inversion Hky; subst ky.
      destruct Hrel as [[_ ->]|Hlt]; [exact E|].
      destruct (PrimFloat.ltb k kh) eqn:C; [|reflexivity].
      rewrite (ltb_trans k kh bk C Hlt) in E. discriminate.
Qed.

Lemma py_min_least (l : list Facility) (h : Facility) :
  py_min key l = Return h ->
  exists kh : float,
    In h l
    /\ key h = Return kh
    /\ (forall x kx, In x l -> key x = Return kx -> PrimFloat.ltb kx kh = false).
Proof.
  intros H. pose proof (py_min_member key l h H) as Hin.
  destruct l as [|x l]; [discriminate|]. cbn [py_min] in H.
  destruct (key x) as [k|e] eqn:Ex; cbn [bind] in H; [|discriminate].
  destruct (min_loop_least l x k h Ex H) as [kh [Hk [Hrel Hall]]].
  exists kh. split; [exact Hin|]. split; [exact Hk|].
  intros y ky [<-|Hy] Hky; [|now apply (Hall y)].
  rewrite Ex in Hky. inversion Hky; subst ky.
  destruct Hrel as [[_ ->]|Hlt]; [apply ltb_irrefl | now apply ltb_asym].
Qed.

(** [min] looks at every item: when it returns, every key was computed. *)
Lemma min_loop_all_keys (l : list Facility) :
  forall (best : Facility) (best_key : float) (h : Facility),
    min_loop key best best_key l = Return h ->
    forall x, In x l -> exists kx, key x = Return kx.
Proof.
  induction l as [|y l IH]; intros best bk h H x Hx; [destruct Hx|].
  cbn [min_loop] in H.
  destruct (key y) as [k|e] eqn:Ey; cbn [bind] in H; [|discriminate].
  destruct Hx as [<-|Hx]; [now exists k|].
  destruct (PrimFloat.ltb k bk); now apply (IH _ _ _ H).
Qed.

Lemma py_min_all_keys (l : list Facility) (h : Facility) :
  py_min key l = Return h -> forall x, In x l -> exists kx, key x = Return kx.
Proof.
  destruct l as [|y l]; [discriminate|]. cbn [py_min]. intros H x Hx.
  destruct (key y) as [k|e] eqn:Ey; cbn [bind] in H; [|discriminate].
  destruct Hx as [<-|Hx]; [now exists k|].
  now apply (min_loop_all_keys l y k h H).
Qed.

(** Ties go to the earlier item: the scan keeps its item when no later
    key is strictly below the key it holds. *)
Lemma min_loop_keeps_first (l : list Facility) (best : Facility) (best_key : float) :
  (forall x, In x l ->
     exists kx, key x = Return kx /\ PrimFloat.ltb kx best_key = false) ->
  min_loop key best best_key l = Return best.
Proof.
  induction l as [|y l IH]; intros H; [reflexivity|]. cbn [min_loop].
  destruct (H y (or_introl eq_refl)) as [ky [-> Hlt]]. cbn [bind]. rewrite Hlt.
  apply IH. intros x Hx. apply H. now right.
Qed.

End Nearest.

(** X17: The facility the locator names is nearest in the order of the
    computed distances: when the locator returns, its answer is made of one
    facility of the registry, name, phone and own distance, and no facility
    of the registry has a computed distance strictly below that one. *)
Theorem locator_returns_a_nearest_facility :
  forall (libm : Libm) (severity : string) (lat0 lng0 : float)
         (hospitals : list Facility) (d : dict),
    find_hospital_tool severity lat0 lng0 hospitals = Return d ->
    exists (h : Facility) (dh : float),
      In h hospitals
      /\ distance lat0 lng0 (lat h) (lng h) = Return dh
      /\ d = answer h dh
      /\ (forall (x : Facility) (dx : float),
           In x hospitals ->
           distance lat0 lng0 (lat x) (lng x) = Return dx ->
           PrimFloat.ltb dx dh = false).
Proof.
  intros libm severity lat0 lng0 hospitals d. unfold find_hospital_tool.
  destruct (py_min (fun h => distance lat0 lng0 (lat h) (lng h)) hospitals)
    as [h|e] eqn:Hmin; cbn [bind]; [|discriminate].
  apply py_min_least in Hmin. destruct Hmin as [kh [Hin [Hk Hall]]].
  rewrite Hk. cbn [bind]. intros H. inversion H; subst d. clear H.
  exists h, kh. repeat split; auto.
Qed.

Lemma locator_returns_a_nearest_facility_witness :
  exists (h : Facility) (dh : float),
    In h [ {| name := "A"; lat := 0; lng := 0;
              phone := Some "108"; ambulance_phone := None |};
           {| name := "B"; lat := 0; lng := 1;
              phone := None; ambulance_phone := Some "102" |} ]
    /\ @distance linear_libm 0 0 (lat h) (lng h) = Return dh
    /\ [ ("nearest_hospital", PStr "A"); ("phone", PStr "108");
         ("distance_km", PFloat 0) ] = @answer linear_libm h dh
    /\ (forall (x : Facility) (dx : float),
         In x [ {| name := "A"; lat := 0; lng := 0;
                   phone := Some "108"; ambulance_phone := None |};
                {| name := "B"; lat := 0; lng := 1;
                   phone := None; ambulance_phone := Some "102" |} ] ->
         @distance linear_libm 0 0 (lat x) (lng x) = Return dx ->
         PrimFloat.ltb dx dh = false).
Proof.
  apply (locator_returns_a_nearest_facility linear_libm "ALS" 0 0).
  vm_compute. reflexivity.
Defined.

(** X18: Every facility of the registry is measured: one facility whose
    distance cannot be computed makes the whole lookup fail, wherever it
    stands in the registry. *)
Theorem locator_fails_on_one_bad_facility :
  forall (libm : Libm) (severity : string) (lat0 lng0 : float)
         (hospitals : list Facility) (x : Facility) (e : exn),
    In x hospitals ->
    distance lat0 lng0 (lat x) (lng x) = Raise e ->
    exists e' : exn, find_hospital_tool severity lat0 lng0 hospitals = Raise e'.
Proof.
  intros libm severity lat0 lng0 hospitals x e Hin He. unfold find_hospital_tool.
  destruct (py_min (fun h => distance lat0 lng0 (lat h) (lng h)) hospitals)
    as [h|e'] eqn:Hmin; cbn [bind]; [|now exists e'].
  destruct (py_min_all_keys _ _ _ Hmin x Hin) as [kx Hkx].
  rewrite He in Hkx. discriminate.
Qed.

(** X19: Ties go to the first: when no later facility has a computed distance
    strictly below that of the first facility of the registry, the first
    one is the answer. *)
Theorem locator_prefers_the_first_on_ties :
  forall (libm : Libm) (severity : string) (lat0 lng0 : float)
         (first : Facility) (others : list Facility) (d1 : float),
    distance lat0 lng0 (lat first) (lng first) = Return d1 ->
    (forall x, In x others ->
       exists dx, distance lat0 lng0 (lat x) (lng x) = Return dx
                  /\ PrimFloat.ltb dx d1 = false) ->
    find_hospital_tool severity lat0 lng0 (first :: others) = Return (answer first d1).
Proof.
  intros libm severity lat0 lng0 first others d1 H1 Hothers.
  unfold find_hospital_tool. cbn [py_min]. rewrite H1. cbn [bind].
  rewrite (min_loop_keeps_first _ others first d1 Hothers). cbn [bind].
  rewrite H1. reflexivity.
Qed.

Lemma locator_fails_on_one_bad_facility_witness :
  exists e' : exn,
    @find_hospital_tool linear_libm "BLS" 0 0
      [ {| name := "A"; lat := 0; lng := 0;
           phone := Some "108"; ambulance_phone := None |};
        {| name := "C"; lat := 4; lng := 0;
           phone := Some "109"; ambulance_phone := None |} ] = Raise e'.
Proof.
  apply (locator_fails_on_one_bad_facility linear_libm "BLS" 0 0 _
           {| name := "C"; lat := 4; lng := 0;
              phone := Some "109"; ambulance_phone := None |} ValueError).
  - simpl. auto.
  - vm_compute. reflexivity.
Defined.

Lemma locator_prefers_the_first_on_ties_witness :
  @find_hospital_tool linear_libm "BLS" 0 0
    [ {| name := "A"; lat := 0; lng := 0;
         phone := Some "108"; ambulance_phone := None |};
      {| name := "A2"; lat := 0; lng := 0;
         phone := Some "109"; ambulance_phone := None |};
      {| name := "B"; lat := 0; lng := 1;
         phone := None; ambulance_phone := Some "102" |} ] =
  Return (@answer linear_libm
            {| name := "A"; lat := 0; lng := 0;
               phone := Some "108"; ambulance_phone := None |} 0).
Proof.
  apply (locator_prefers_the_first_on_ties linear_libm "BLS" 0 0).
  - vm_compute. reflexivity.
  - intros x [<-|[<-|[]]]; eexists; split; vm_compute; reflexivity.
Defined.

(** ** Start-up and the bearer token *)

Lemma str_truthy_false (s : string) : str_truthy s = false <-> s = EmptyString.
Proof. destruct s; simpl; split; congruence. Qed.

(** X20: Start-up fails exactly when one of the two settings is present and
    empty; a setting that is absent falls back on its default. *)
Theorem startup_fails_iff_empty_setting :
  forall env : environ,
    (exists e : startup_error, startup env = inr e)
    <-> env "AUTH_TOKEN" = Some EmptyString \/ env "MY_NUMBER" = Some EmptyString.
Proof.
  intros env. unfold startup, environ_get. split.
  - intros [e H].
    destruct (env "AUTH_TOKEN") as [[|c a]|]; [now left | |];
      (destruct (env "MY_NUMBER") as [[|c' n]|]; [now right | |]);
      simpl in H; discriminate.
  - intros [H|H]; rewrite H; simpl; [eauto|].
    destruct (env "AUTH_TOKEN") as [[|c a]|]; simpl; eauto.
Qed.

(** A bearer token is accepted when it is, character for character, the
    token of the provider, and the access it gives names the client
    "puch-client" with every scope and no expiry. *)
Theorem token_accepted_iff_equal :
  forall (self : SimpleBearerAuthProvider) (presented : string) (a : AccessToken),
    load_access_token self presented = Some a
    <-> presented = token self
        /\ a = {| access_token := token self; client_id := "puch-client";
                  scopes := ["*"]; expires_at := None |}.
Proof.
  intros self presented a. unfold load_access_token.
  destruct (String.eqb_spec presented (token self)) as [->|N]; split.
  - intros H. inversion H. auto.
  - intros [_ ->]. reflexivity.
  - discriminate.
  - intros [H _]. contradiction.
Qed.

(** X21: A server that started never accepts the empty bearer token, accepts
    the token it was configured with and no other, and [validate] answers
    with a number that is not empty. *)
Theorem started_server_guards_its_token :
  forall (env : environ) (srv : server),
    startup env = inl srv ->
    load_access_token (auth srv) EmptyString = None
    /\ (forall t : string,
          load_access_token (auth srv) t <> None
          <-> t = environ_get env "AUTH_TOKEN" "Q4v@8gP1zL#xD2mV!tN3rB7k")
    /\ validate srv = environ_get env "MY_NUMBER" "919840499661"
    /\ validate srv <> EmptyString.
Proof.
  intros env srv. unfold startup.
  destruct (environ_get env "AUTH_TOKEN" _) as [|c a] eqn:Ea; [discriminate|].
  destruct (environ_get env "MY_NUMBER" _) as [|c' n] eqn:En; [discriminate|].
  cbn [str_truthy negb]. intros H. inversion H; subst srv. clear H.
  unfold load_access_token, validate. cbn [auth token MY_NUMBER].
  split; [reflexivity|]. split; [|split; [reflexivity | discriminate]].
  intros t. destruct (String.eqb_spec t (String c a)) as [->|N]; split;
    congruence.
Qed.

Lemma started_server_guards_its_token_witness :
  load_access_token {| token := "s3cret" |} EmptyString = None
  /\ (forall t : string,
        load_access_token {| token := "s3cret" |} t <> None
        <-> t = environ_get (environ_of [("AUTH_TOKEN", "s3cret")])
                  "AUTH_TOKEN" "Q4v@8gP1zL#xD2mV!tN3rB7k")
  /\ "919840499661" =
     environ_get (environ_of [("AUTH_TOKEN", "s3cret")]) "MY_NUMBER" "919840499661"
  /\ "919840499661" <> EmptyString.
Proof.
  apply (started_server_guards_its_token
           (environ_of [("AUTH_TOKEN", "s3cret")])
           {| AUTH_TOKEN := "s3cret"; MY_NUMBER := "919840499661";
              auth := {| token := "s3cret" |} |}).
  reflexivity.
Defined.

(** ** The locator against its specification *)

Lemma min_loop_returns (key : Facility -> res float) (l : list Facility) :
  forall (best : Facility) (best_key : float),
    (forall x, In x l -> exists kx, key x = Return kx) ->
    exists h, min_loop key best best_key l = Return h.
Proof.
  induction l as [|y l IH]; intros best bk H; cbn [min_loop]; [now exists best|].
  destruct (H y (or_introl eq_refl)) as [ky ->]. cbn [bind].
  destruct (PrimFloat.ltb ky bk); apply IH; intros x Hx; apply H; now right.
Qed.

(** [min] returns as soon as the list is not empty and every key can be
    computed. *)
Lemma py_min_returns (key : Facility -> res float) (l : list Facility) :
  l <> [] ->
  (forall x, In x l -> exists kx, key x = Return kx) ->
  exists h, py_min key l = Return h.
Proof.
  intros Hne H. destruct l as [|y l]; [now elim Hne|]. cbn [py_min].
  destruct (H y (or_introl eq_refl)) as [ky ->]. cbn [bind].
  apply min_loop_returns. intros x Hx. apply H. now right.
Qed.

Lemma py_or_dialled (h : Facility) :
  py_or (ambulance_phone h) (phone h) = dialled_phone h.
Proof.
  unfold py_or, dialled_phone. destruct (ambulance_phone h) as [[|c p]|]; reflexivity.
Qed.

(** C4, as stated, fails, whatever the C library computes: for a registry
    of one facility whose ambulance phone is present and empty, the locator
    does not answer with that ambulance phone; when it returns, the phone is
    the other one. *)
Lemma C4_empty_ambulance_phone_gives_way :
  ~ exists libm : Libm, locate_nearest_as_specified libm.
Proof.
  intros [libm H].
  destruct (H "ALS" 0%float 0%float
              [ {| name := "A"; lat := 0; lng := 0;
                   phone := Some "108"; ambulance_phone := Some "" |} ])
    as [h [dh [Hin [Hd [_ Hret]]]]]; [discriminate|].
  destruct Hin as [<-|[]]. cbn [lat lng] in Hd.
  unfold find_hospital_tool in Hret. cbn [py_min lat lng] in Hret.
  rewrite Hd in Hret. cbn [bind min_loop lat lng] in Hret.
  rewrite Hd in Hret. cbn [bind] in Hret.
  inversion Hret.
Qed.

(** C4, amended: for every non-empty facilities sequence and every query
    coordinate for which the distance to each facility can be computed,
    the locator returns the name of a facility of the sequence below whose
    computed haversine distance (earth radius 6371) no facility's distance
    lies, the phone being that facility's ambulance phone if present and
    not empty, else its phone, else none, and distance_km being that
    distance rounded to two decimals. *)
Theorem C4_locator_answers_with_a_nearest_facility :
  forall (libm : Libm) (severity : string) (lat0 lng0 : float)
         (hospitals : list Facility),
    hospitals <> [] ->
    (forall x : Facility, In x hospitals ->
       exists dx : float, distance lat0 lng0 (lat x) (lng x) = Return dx) ->
    exists (h : Facility) (dh : float),
      In h hospitals
      /\ distance lat0 lng0 (lat h) (lng h) = Return dh
      /\ (forall (x : Facility) (dx : float),
           In x hospitals ->
           distance lat0 lng0 (lat x) (lng x) = Return dx ->
           PrimFloat.ltb dx dh = false)
      /\ find_hospital_tool severity lat0 lng0 hospitals =
         Return [ ("nearest_hospital", PStr (name h));
                  ("phone",
                   opt_str (match ambulance_phone h with
                            | Some (String c p) => Some (String c p)
                            | _ => phone h
                            end));
                  ("distance_km", PFloat (round dh 2)) ].
Proof.
  intros libm severity lat0 lng0 hospitals Hne Hall.
  destruct (py_min_returns (fun h => distance lat0 lng0 (lat h) (lng h))
              hospitals Hne Hall) as [h Hmin].
  destruct (py_min_least _ _ _ Hmin) as [dh [Hin [Hd Hleast]]].
  exists h, dh. repeat split; auto.
  unfold find_hospital_tool. rewrite Hmin. cbn [bind]. rewrite Hd. cbn [bind].
  rewrite py_or_dialled. reflexivity.
Qed.

Lemma C4_witness :
  exists (h : Facility) (dh : float),
    In h [ {| name := "A"; lat := 0; lng := 1;
              phone := Some "108"; ambulance_phone := Some "" |};
           {| name := "B"; lat := 0; lng := 0;
              phone := None; ambulance_phone := Some "102" |} ]
    /\ @distance linear_libm 0 0 (lat h) (lng h) = Return dh
    /\ (forall (x : Facility) (dx : float),
         In x [ {| name := "A"; lat := 0; lng := 1;
                   phone := Some "108"; ambulance_phone := Some "" |};
                {| name := "B"; lat := 0; lng := 0;
                   phone := None; ambulance_phone := Some "102" |} ] ->
         @distance linear_libm 0 0 (lat x) (lng x) = Return dx ->
         PrimFloat.ltb dx dh = false)
    /\ @find_hospital_tool linear_libm "Critical" 0 0
         [ {| name := "A"; lat := 0; lng := 1;
              phone := Some "108"; ambulance_phone := Some "" |};
           {| name := "B"; lat := 0; lng := 0;
              phone := None; ambulance_phone := Some "102" |} ] =
       Return [ ("nearest_hospital", PStr (name h));
                ("phone",
                 opt_str (match ambulance_phone h with
                          | Some (String c p) => Some (String c p)
                          | _ => phone h
                          end));
                ("distance_km", PFloat (@round linear_libm dh 2)) ].
Proof.
  apply (C4_locator_answers_with_a_nearest_facility linear_libm "Critical" 0 0).
  - discriminate.
  - intros x [<-|[<-|[]]]; eexists; vm_compute; reflexivity.
Defined.

Example locator_second_is_nearer :
  @find_hospital_tool linear_libm "Critical" 0 0
    [ {| name := "A"; lat := 0; lng := 1;
         phone := Some "108"; ambulance_phone := Some "" |};
      {| name := "B"; lat := 0; lng := 0;
         phone := None; ambulance_phone := Some "102" |} ] =
  Return [ ("nearest_hospital", PStr "B"); ("phone", PStr "102");
           ("distance_km", PFloat 0) ].
Proof. vm_compute. reflexivity. Qed.

Example locator_empty_ambulance_phone :
  @find_hospital_tool linear_libm "Critical" 0 0
    [ {| name := "A"; lat := 0; lng := 0;
         phone := Some "108"; ambulance_phone := Some "" |} ] =
  Return [ ("nearest_hospital", PStr "A"); ("phone", PStr "108");
           ("distance_km", PFloat 0) ].
Proof. vm_compute. reflexivity. Qed.
